(** * AWS Web Scraper: the Lambda function [backend/lambda_function.py]

    A shallow embedding of the request handler, the page scraper, the
    image harvester and the image uploader, followed by the properties
    proved about them.

    Conventions of the embedding.
    - A Python [str] is a [string]; one [ascii] stands for one character
      (the code points U+0000..U+00FF), so [String.length] is [len]. The
      messages of the handler, which are never inspected, are kept as
      they are written in the source.
    - Everything outside the process (HTTP servers, the object store) is
      an oracle carried by the [World]; each call ticks a clock and is
      appended to a trace, so a second call may be answered differently.
    - Library functions whose tables or grammars live outside the
      repository (the HTML parser, [urljoin], [json.loads], [json.dumps],
      the codecs, [mimetypes.guess_extension]) and the settings read
      from the process environment are the fields of the class [Env].
      The parser and [urljoin] may raise: the parser rejects some
      markup, and [urljoin] raises a [ValueError] on a reference whose
      host opens a bracket that is never closed.
    - A parsed page is given as its tree; [hashlib.md5] is embedded in
      full. *)

From Stdlib Require Import ZArith Ascii String List Bool Lia.
From stdpp Require Import base list strings gmap.

#[local] Set Warnings "-register-all".

(** ** Python's [str] methods used by the source *)

Module Str.

(** [str.isspace] on one character: TAB..CR, FS..US, space, NEL, NBSP. *)
Definition is_space (c : ascii) : bool :=
  let n := nat_of_ascii c in
  ((9 <=? n) && (n <=? 13)) || ((28 <=? n) && (n <=? 32))
  || (n =? 133) || (n =? 160).

(** [str.lower] on one character: A..Z and the upper-case letters of
    U+00C0..U+00DE (the multiplication sign U+00D7 is no letter). *)
Definition lower_char (c : ascii) : ascii :=
  let n := nat_of_ascii c in
  if ((65 <=? n) && (n <=? 90))
     || ((192 <=? n) && (n <=? 222) && negb (n =? 215))
  then ascii_of_nat (n + 32) else c.

Fixpoint lower (s : string) : string :=
  match s with
  | EmptyString => EmptyString
  | String c s' => String (lower_char c) (lower s')
  end.

Definition is_empty (s : string) : bool :=
  match s with EmptyString => true | String _ _ => false end.

Fixpoint lstrip (s : string) : string :=
  match s with
  | EmptyString => EmptyString
  | String c s' => if is_space c then lstrip s' else s
  end.

Fixpoint rstrip (s : string) : string :=
  match s with
  | EmptyString => EmptyString
  | String c s' =>
      let r := rstrip s' in
      if is_space c && is_empty r then EmptyString else String c r
  end.

(** [s.strip()] *)
Definition strip (s : string) : string := rstrip (lstrip s).

(** [s.startswith(p)] *)
Definition startswith (s p : string) : bool := String.prefix p s.

(** [sub in s] *)
Fixpoint contains (sub s : string) : bool :=
  String.prefix sub s
  || match s with
     | EmptyString => false
     | String _ s' => contains sub s'
     end.

(** [s.split(c)[0]] for a one-character separator [c]. *)
Fixpoint split_head (c : ascii) (s : string) : string :=
  match s with
  | EmptyString => EmptyString
  | String a s' => if Ascii.eqb a c then EmptyString else String a (split_head c s')
  end.

(** [sep.join(parts)] *)
Definition join (sep : string) (parts : list string) : string :=
  String.concat sep parts.

(** [x or default] on a string. *)
Definition or_else (s default : string) : string :=
  if is_empty s then default else s.

(** [str(n)] for an integer. *)
Fixpoint digits (fuel : nat) (n : N) (acc : string) : string :=
  match fuel with
  | O => acc
  | S fuel' =>
      let d := String (ascii_of_N (48 + N.modulo n 10)) acc in
      if (n <? 10)%N then d else digits fuel' (N.div n 10) d
  end.

Definition of_Z (z : Z) : string :=
  let n := Z.abs_N z in
  let body := digits (S (N.to_nat (N.log2 n))) n EmptyString in
  if (z <? 0)%Z then String "-"%char body else body.

End Str.

(** ** The parse tree of BeautifulSoup *)

(** A page element: a text node, any other string container (comment,
    doctype, declaration), or a tag with its attributes and children. *)
Inductive node : Type :=
| NavigableString (s : string)
| Comment (s : string)
| Tag (name : string) (attrs : list (string * string)) (contents : list node).

(** The [BeautifulSoup] object: the children of the document root. *)
Abbreviation soup := (list node).

(** [tag.descendants]: every element below [n], in document order. *)
Fixpoint descendants (n : node) : list node :=
  match n with
  | Tag _ _ cs => flat_map (fun c => c :: descendants c) cs
  | _ => []
  end.

Definition soup_descendants (s : soup) : list node :=
  flat_map (fun c => c :: descendants c) s.

Definition name_in (names : list string) (n : node) : bool :=
  match n with
  | Tag nm _ _ => bool_decide (nm ∈ names)
  | _ => false
  end.

(** [tag.get(key)]: [None] without the attribute. *)
Fixpoint assoc (key : string) (kvs : list (string * string)) : option string :=
  match kvs with
  | [] => None
  | (k, v) :: rest => if String.eqb k key then Some v else assoc key rest
  end.

Definition attr (n : node) (key : string) : option string :=
  match n with Tag _ ats _ => assoc key ats | _ => None end.

(** [tag.get(key, default)] *)
Definition attr_get (n : node) (key dflt : string) : string :=
  default dflt (attr n key).

(** ** MD5 ([hashlib.md5]) over bytes *)

Module MD5.

Local Open Scope Z_scope.

Definition add32 (a b : Z) : Z := (a + b) mod 2 ^ 32.

Definition rotl32 (x c : Z) : Z :=
  Z.lor (Z.shiftl x c mod 2 ^ 32) (Z.shiftr x (32 - c)).

Definition not32 (x : Z) : Z := Z.lxor x 0xFFFFFFFF.

Definition shifts : list Z :=
  [7; 12; 17; 22; 7; 12; 17; 22; 7; 12; 17; 22; 7; 12; 17; 22;
   5; 9; 14; 20; 5; 9; 14; 20; 5; 9; 14; 20; 5; 9; 14; 20;
   4; 11; 16; 23; 4; 11; 16; 23; 4; 11; 16; 23; 4; 11; 16; 23;
   6; 10; 15; 21; 6; 10; 15; 21; 6; 10; 15; 21; 6; 10; 15; 21].

Definition sines : list Z :=
  [0xd76aa478; 0xe8c7b756; 0x242070db; 0xc1bdceee;
   0xf57c0faf; 0x4787c62a; 0xa8304613; 0xfd469501;
   0x698098d8; 0x8b44f7af; 0xffff5bb1; 0x895cd7be;
   0x6b901122; 0xfd987193; 0xa679438e; 0x49b40821;
   0xf61e2562; 0xc040b340; 0x265e5a51; 0xe9b6c7aa;
   0xd62f105d; 0x02441453; 0xd8a1e681; 0xe7d3fbc8;
   0x21e1cde6; 0xc33707d6; 0xf4d50d87; 0x455a14ed;
   0xa9e3e905; 0xfcefa3f8; 0x676f02d9; 0x8d2a4c8a;
   0xfffa3942; 0x8771f681; 0x6d9d6122; 0xfde5380c;
   0xa4beea44; 0x4bdecfa9; 0xf6bb4b60; 0xbebfbc70;
   0x289b7ec6; 0xeaa127fa; 0xd4ef3085; 0x04881d05;
   0xd9d4d039; 0xe6db99e5; 0x1fa27cf8; 0xc4ac5665;
   0xf4292244; 0x432aff97; 0xab9423a7; 0xfc93a039;
   0x655b59c3; 0x8f0ccc92; 0xffeff47d; 0x85845dd1;
   0x6fa87e4f; 0xfe2ce6e0; 0xa3014314; 0x4e0811a1;
   0xf7537e82; 0xbd3af235; 0x2ad7d2bb; 0xeb86d391].

(** Little-endian bytes of a word, and back. *)
Definition le_bytes (n : nat) (x : Z) : list Z :=
  map (fun i => Z.shiftr x (8 * Z.of_nat i) mod 256) (seq 0 n).

Fixpoint le_word (bs : list Z) : Z :=
  match bs with
  | [] => 0
  | b :: bs' => b + 256 * le_word bs'
  end.

(** The message followed by 0x80, zeros up to 56 modulo 64, and its
    length in bits on eight bytes. *)
Definition pad (msg : list Z) : list Z :=
  let len := Z.of_nat (length msg) in
  let zeros := Z.to_nat ((55 - len) mod 64) in
  msg ++ [0x80] ++ repeat 0 zeros ++ le_bytes 8 ((8 * len) mod 2 ^ 64).

Fixpoint chunks (fuel : nat) (bs : list Z) : list (list Z) :=
  match fuel, bs with
  | S fuel', _ :: _ => firstn 64 bs :: chunks fuel' (skipn 64 bs)
  | _, _ => []
  end.

Fixpoint words (fuel : nat) (bs : list Z) : list Z :=
  match fuel with
  | O => []
  | S fuel' => le_word (firstn 4 bs) :: words fuel' (skipn 4 bs)
  end.

Definition state : Type := Z * Z * Z * Z.

Definition round (m : list Z) (st : state) (i : nat) : state :=
  let '(a, b, c, d) := st in
  let iz := Z.of_nat i in
  let '(f, g) :=
    if iz <? 16 then (Z.lor (Z.land b c) (Z.land (not32 b) d), iz)
    else if iz <? 32 then (Z.lor (Z.land d b) (Z.land (not32 d) c), (5 * iz + 1) mod 16)
    else if iz <? 48 then (Z.lxor b (Z.lxor c d), (3 * iz + 5) mod 16)
    else (Z.lxor c (Z.lor b (not32 d)), (7 * iz) mod 16) in
  let f' := add32 (add32 (add32 f a) (nth i sines 0)) (nth (Z.to_nat g) m 0) in
  (d, add32 b (rotl32 f' (nth i shifts 0)), b, c).

Definition compress (st : state) (chunk : list Z) : state :=
  let m := words 16 chunk in
  let '(a, b, c, d) := fold_left (round m) (seq 0 64) st in
  let '(a0, b0, c0, d0) := st in
  (add32 a0 a, add32 b0 b, add32 c0 c, add32 d0 d).

Definition digest (msg : list Z) : list Z :=
  let p := pad msg in
  let '(a, b, c, d) :=
    fold_left compress (chunks (length p) p)
      (0x67452301, 0xefcdab89, 0x98badcfe, 0x10325476) in
  le_bytes 4 a ++ le_bytes 4 b ++ le_bytes 4 c ++ le_bytes 4 d.

Definition hex_digit (z : Z) : ascii :=
  ascii_of_N (Z.to_N (if z <? 10 then 48 + z else 87 + z)).

Fixpoint hex (bs : list Z) : string :=
  match bs with
  | [] => EmptyString
  | b :: bs' => String (hex_digit (b / 16)) (String (hex_digit (b mod 16)) (hex bs'))
  end.

(** [hashlib.md5(msg).hexdigest()] *)
Definition hexdigest (msg : list Z) : string := hex (digest msg).

End MD5.

(** [s.encode()]: UTF-8, on the code points U+0000..U+00FF. *)
Fixpoint encode (s : string) : list Z :=
  match s with
  | EmptyString => []
  | String c s' =>
      let n := Z.of_nat (nat_of_ascii c) in
      (if (n <? 128)%Z then [n] else [192 + n / 64; 128 + n mod 64])%Z ++ encode s'
  end.

(** ** Navigating and editing the tree *)

(** [soup.find_all(names)]: the tags with one of the names, in document
    order. *)
Definition find_all (names : list string) (s : soup) : list node :=
  List.filter (name_in names) (soup_descendants s).

(** [soup.find(name)] *)
Definition find (name : string) (s : soup) : option node :=
  head (find_all [name] s).

(** [for tag in soup(names): tag.decompose()]: every subtree rooted at a
    tag with one of the names is cut out of the tree. A tag nested in
    another one of the list goes with its ancestor, and decomposing it
    again changes nothing. *)
Fixpoint decompose_node (names : list string) (n : node) : list node :=
  match n with
  | Tag nm ats cs =>
      if bool_decide (nm ∈ names) then []
      else [Tag nm ats (flat_map (decompose_node names) cs)]
  | _ => [n]
  end.

Definition decompose_all (names : list string) (s : soup) : soup :=
  flat_map (decompose_node names) s.

(** The strings [get_text] joins: the text nodes below the tag, each
    stripped and dropped when empty if [strip] is set. *)
Definition text_of (strip : bool) (n : node) : list string :=
  match n with
  | NavigableString s =>
      if strip
      then (let s' := Str.strip s in if Str.is_empty s' then [] else [s'])
      else [s]
  | _ => []
  end.

Definition all_strings (strip : bool) (n : node) : list string :=
  flat_map (text_of strip) (descendants n).

(** [tag.get_text(separator=sep, strip=strip)] *)
Definition get_text (sep : string) (strip : bool) (n : node) : string :=
  Str.join sep (all_strings strip n).

(** ** Exceptions and the outside world *)

(** The exception classes the handler tells apart, each with [str(e)].
    [RequestException] stands for the instances of that class that are
    none of the three subclasses before it; [PyError] is any other
    [Exception], with its class name. *)
Inductive exn : Type :=
| Timeout (msg : string)
| HTTPError (status : Z) (msg : string)
| TooManyRedirects (msg : string)
| RequestException (msg : string)
| PyError (cls msg : string).

Inductive outcome (A : Type) : Type :=
| Ret (a : A)
| Raise (e : exn).
Arguments Ret {A} a.
Arguments Raise {A} e.

Abbreviation bytes := (list Z).

(** What [requests.get] is called with, and what it returns. *)
Record Request : Type := mkRequest {
  url : string;
  params : list (string * string);
  headers : list (string * string);
  timeout : Z
}.

Record Response : Type := mkResponse {
  status_code : Z;
  resp_headers : list (string * string);
  content : bytes;
  apparent_encoding : option string;
  encoding : option string
}.

Inductive io_event : Type :=
| Get (rq : Request)
| PutObject (bucket key : string) (body : bytes) (content_type : string).

(** The servers and the store answer by the time of the call and its
    arguments; [clock] counts the calls made and [trace] lists them,
    latest first. *)
Record World : Type := mkWorld {
  net : nat -> Request -> outcome Response;
  store : nat -> string -> string -> option exn;
  clock : nat;
  trace : list io_event
}.

Definition tick (ev : io_event) (w : World) : World :=
  {| net := net w; store := store w; clock := S (clock w); trace := ev :: trace w |}.

(** Computations that may raise and that act on the world. *)
Definition M (A : Type) : Type := World -> outcome A * World.

Definition ret {A} (a : A) : M A := fun w => (Ret a, w).

Definition raise {A} (e : exn) : M A := fun w => (Raise e, w).

Definition bind {A B} (m : M A) (k : A -> M B) : M B :=
  fun w => match m w with
           | (Ret a, w') => k a w'
           | (Raise e, w') => (Raise e, w')
           end.

(** [try: m  except Exception as e: h e] *)
Definition try_except {A} (m : M A) (h : exn -> M A) : M A :=
  fun w => match m w with
           | (Ret a, w') => (Ret a, w')
           | (Raise e, w') => h e w'
           end.

Definition lift {A} (o : outcome A) : M A := fun w => (o, w).

#[global] Instance M_ret : MRet M := @ret.
#[global] Instance M_bind : MBind M := fun A B k m => bind m k.

#[global] Instance outcome_ret : MRet outcome := @Ret.
#[global] Instance outcome_bind : MBind outcome :=
  fun A B k o => match o with Ret a => k a | Raise e => Raise e end.

(** [requests.get(url, params=..., headers=..., timeout=...)] *)
Definition requests_get (rq : Request) : M Response :=
  fun w => (net w (clock w) rq, tick (Get rq) w).

(** [s3_client.put_object(Bucket=..., Key=..., Body=..., ContentType=...)] *)
Definition put_object (bucket key : string) (body : bytes) (content_type : string) : M unit :=
  fun w =>
    (match store w (clock w) bucket key with
     | None => Ret tt
     | Some e => Raise e
     end, tick (PutObject bucket key body content_type) w).

Definition is_error_status (r : Response) : bool :=
  ((400 <=? status_code r) && (status_code r <? 600))%Z.

(** [resp.raise_for_status()] *)
Definition raise_for_status (r : Response) : M unit :=
  if is_error_status r
  then raise (HTTPError (status_code r) (Str.of_Z (status_code r) +:+ " Error"))
  else ret tt.

(** [resp.ok] *)
Definition ok (r : Response) : bool := negb (is_error_status r).

(** [resp.headers.get(name, default)]: header names compare without case. *)
Fixpoint header_lookup (name : string) (hs : list (string * string)) : option string :=
  match hs with
  | [] => None
  | (k, v) :: rest =>
      if String.eqb (Str.lower k) (Str.lower name) then Some v
      else header_lookup name rest
  end.

Definition header_get (r : Response) (name dflt : string) : string :=
  default dflt (header_lookup name (resp_headers r)).

(** [resp.encoding = enc] *)
Definition set_encoding (r : Response) (enc : string) : Response :=
  {| status_code := status_code r; resp_headers := resp_headers r;
     content := content r; apparent_encoding := apparent_encoding r;
     encoding := Some enc |}.

(** ** JSON values, as Python sees them *)

Inductive json : Type :=
| JNull
| JBool (b : bool)
| JNum (n : Z)
| JStr (s : string)
| JArr (items : list json)
| JObj (fields : list (string * json)).

Fixpoint lookup_field (key : string) (kvs : list (string * json)) : option json :=
  match kvs with
  | [] => None
  | (k, v) :: rest => if String.eqb k key then Some v else lookup_field key rest
  end.

Definition type_name (v : json) : string :=
  match v with
  | JNull => "NoneType" | JBool _ => "bool" | JNum _ => "int"
  | JStr _ => "str" | JArr _ => "list" | JObj _ => "dict"
  end.

Definition attribute_error {A} (v : json) (name : string) : outcome A :=
  Raise (PyError "AttributeError"
           ("'" +:+ type_name v +:+ "' object has no attribute '" +:+ name +:+ "'")).

Definition type_error {A} (msg : string) : outcome A :=
  Raise (PyError "TypeError" msg).

(** [d.get(key, default)] *)
Definition py_get (d : json) (key : string) (dflt : json) : outcome json :=
  match d with
  | JObj kvs => Ret (default dflt (lookup_field key kvs))
  | _ => attribute_error d "get"
  end.

(** [bool(v)] *)
Definition truthy (v : json) : bool :=
  match v with
  | JNull => false
  | JBool b => b
  | JNum n => negb (n =? 0)%Z
  | JStr s => negb (Str.is_empty s)
  | JArr l => match l with [] => false | _ => true end
  | JObj l => match l with [] => false | _ => true end
  end.

(** [v.strip()] *)
Definition py_strip (v : json) : outcome string :=
  match v with
  | JStr s => Ret (Str.strip s)
  | _ => attribute_error v "strip"
  end.

Fixpoint chars (s : string) : list json :=
  match s with
  | EmptyString => []
  | String c s' => JStr (String c EmptyString) :: chars s'
  end.

(** The items a [for] loop over [v] visits. *)
Definition py_iter (v : json) : outcome (list json) :=
  match v with
  | JArr l => Ret l
  | JObj kvs => Ret (map (fun kv => JStr (fst kv)) kvs)
  | JStr s => Ret (chars s)
  | _ => type_error ("'" +:+ type_name v +:+ "' object is not iterable")
  end.

Fixpoint string_take (n : nat) (s : string) : string :=
  match n, s with
  | S n', String c s' => String c (string_take n' s')
  | _, _ => EmptyString
  end.

(** [v[:n]] *)
Definition py_slice (v : json) (n : nat) : outcome json :=
  match v with
  | JArr l => Ret (JArr (firstn n l))
  | JStr s => Ret (JStr (string_take n s))
  | JObj _ => type_error "unhashable type: 'slice'"
  | _ => type_error ("'" +:+ type_name v +:+ "' object is not subscriptable")
  end.

Definition is_str (v : json) (s : string) : bool :=
  match v with JStr s' => String.eqb s' s | _ => false end.

(** ** Configuration and library functions *)

(** The functions of the libraries the source calls, and the settings it
    reads from the process environment when it is loaded.
    - [BeautifulSoup text]: [BeautifulSoup(text, "html.parser")], the
      tree of the page or the exception of a parser that rejects it;
    - [urljoin base ref]: [urllib.parse.urljoin], the resolved address
      or the exception ([ValueError]) it raises on a malformed one;
    - [guess_extension]: [mimetypes.guess_extension];
    - [decode enc bs]: the text of the bytes in the named encoding, as
      [Response.text] computes it;
    - [json_loads]: [json.loads], [None] for a [JSONDecodeError];
    - [json_dumps v]: [json.dumps(v, ensure_ascii=False)]. *)
Class Env : Type := mkEnv {
  BeautifulSoup : string -> outcome soup;
  urljoin : string -> string -> outcome string;
  guess_extension : string -> option string;
  decode : string -> bytes -> string;
  json_loads : string -> option json;
  json_dumps : json -> string;
  IMAGE_BUCKET : string;
  AWS_REGION : string;
  BRAVE_API_KEY : string
}.

Definition MAX_IMAGES : nat := 10.

Definition REQUEST_HEADERS : list (string * string) :=
  [("User-Agent",
    "Mozilla/5.0 (Windows NT 10.0; Win64; x64) " +:+
    "AppleWebKit/537.36 (KHTML, like Gecko) " +:+
    "Chrome/122.0.0.0 Safari/537.36");
   ("Accept", "text/html,application/xhtml+xml,application/xml;q=0.9,*/*;q=0.8");
   ("Accept-Language", "ja,en-US;q=0.7,en;q=0.3");
   ("Accept-Encoding", "gzip, deflate, br");
   ("Connection", "keep-alive")].

Definition CORS_HEADERS : list (string * string) :=
  [("Access-Control-Allow-Origin", "*");
   ("Access-Control-Allow-Headers", "Content-Type,X-Amz-Date,Authorization,X-Api-Key");
   ("Access-Control-Allow-Methods", "POST,OPTIONS");
   ("Content-Type", "application/json; charset=utf-8")].

(** [resp.text] *)
Definition text `{Env} (r : Response) : string :=
  match encoding r with
  | Some enc => decode enc (content r)
  | None => decode (default "utf-8" (apparent_encoding r)) (content r)
  end.

(** [resp.json()]; a body that is no JSON raises the library's
    [JSONDecodeError], a [RequestException]. *)
Definition response_json `{Env} (r : Response) : M json :=
  match json_loads (decode "utf-8" (content r)) with
  | Some v => mret v
  | None => raise (RequestException "Expecting value")
  end.

(** ** The handler's response *)

Record LambdaResponse : Type := mkLambdaResponse {
  statusCode : Z;
  response_headers : list (string * string);
  body : string
}.

Definition _error `{Env} (status : Z) (message : string) : LambdaResponse :=
  {| statusCode := status;
     response_headers := CORS_HEADERS;
     body := json_dumps (JObj [("error", JStr message)]) |}.

(** ** Uploading one image (lines 188-221) *)

Definition storage_key (img_url ext : string) : string :=
  let filename := MD5.hexdigest (encode img_url) +:+ ext in
  "images/" +:+ filename.

Definition storage_url `{Env} (s3_key : string) : string :=
  "https://" +:+ IMAGE_BUCKET +:+ ".s3." +:+ AWS_REGION +:+ ".amazonaws.com/" +:+ s3_key.

Definition extension_of `{Env} (content_type : string) : string :=
  let ext := Str.or_else (default "" (guess_extension content_type)) ".jpg" in
  if String.eqb ext ".jpe" then ".jpg" else ext.

Definition content_type_of (resp : Response) : string :=
  Str.strip (Str.split_head ";" (header_get resp "Content-Type" "image/jpeg")).

Definition image_request (img_url : string) : Request :=
  {| url := img_url; params := []; headers := REQUEST_HEADERS; timeout := 10 |}.

Definition _upload_image_to_s3 `{Env} (img_url : string) : M (option string) :=
  try_except
    (resp ← requests_get (image_request img_url);
     _ ← raise_for_status resp;
     let content_type := content_type_of resp in
     if negb (Str.startswith content_type "image/") then mret None
     else
       let ext := extension_of content_type in
       let s3_key := storage_key img_url ext in
       _ ← put_object IMAGE_BUCKET s3_key (content resp) content_type;
       mret (Some (storage_url s3_key)))
    (fun _ => mret None).

(** ** Harvesting the images of a page (lines 156-185) *)

Definition image_entry (original_url s3_url : string) (alt : json) : json :=
  JObj [("original_url", JStr original_url); ("s3_url", JStr s3_url); ("alt", alt)].

Definition has_src (n : node) : bool :=
  match attr n "src" with Some _ => true | None => false end.

Definition is_http (full_url : string) : bool :=
  Str.startswith full_url "http://" || Str.startswith full_url "https://".

(** The [for img in img_tags] loop, on the tags still to visit and the
    results so far. *)
Fixpoint collect_loop `{Env} (base_url : string) (img_tags : list node)
    (results : list json) : M (list json) :=
  match img_tags with
  | [] => mret results
  | img :: rest =>
      if (MAX_IMAGES <=? length results)%nat then mret results
      else
        let src := Str.strip (attr_get img "src" "") in
        if Str.is_empty src || Str.startswith src "data:"
        then collect_loop base_url rest results
        else
          full_url ← lift (urljoin base_url src);
          if negb (is_http full_url)
          then collect_loop base_url rest results
          else
            s3_url ← _upload_image_to_s3 full_url;
            match s3_url with
            | Some u =>
                if Str.is_empty u then collect_loop base_url rest results
                else collect_loop base_url rest
                       (results ++ [image_entry full_url u (JStr (attr_get img "alt" ""))])
            | None => collect_loop base_url rest results
            end
  end.

Definition _collect_images `{Env} (sp : soup) (base_url : string) : M (list json) :=
  if Str.is_empty IMAGE_BUCKET then mret []
  else
    let img_tags := List.filter has_src (find_all ["img"] sp) in
    collect_loop base_url img_tags [].

(** ** Scraping a page (lines 105-153) *)

Definition NOISE_TAGS : list string :=
  ["script"; "style"; "nav"; "footer"; "header"; "aside";
   "noscript"; "iframe"; "svg"; "form"].

Definition MATCH_TAGS : list string :=
  ["p"; "h1"; "h2"; "h3"; "h4"; "li"; "td"; "dt"; "dd"; "blockquote"].

(** [re.compile(r"^description$", re.I).search(v)]: the word in any
    case, alone or before one final newline. *)
Definition is_description (v : string) : bool :=
  let l := Str.lower v in
  String.eqb l "description"
  || String.eqb l ("description" +:+ String (ascii_of_nat 10) EmptyString).

Definition has_description_name (n : node) : bool :=
  match attr n "name" with Some v => is_description v | None => false end.

Definition page_title (sp : soup) (page_url : string) : string :=
  match find "title" sp with
  | Some title_tag => get_text "" true title_tag
  | None => page_url
  end.

Definition page_description (sp : soup) : string :=
  match head (List.filter has_description_name (find_all ["meta"] sp)) with
  | Some meta => Str.strip (Str.or_else (default "" (attr meta "content")) "")
  | None => ""
  end.

Definition is_match (kw_lower txt : string) (seen : gset string) : bool :=
  Str.contains kw_lower (Str.lower txt)
  && ((15 <? String.length txt)%nat && (String.length txt <? 1500)%nat)
  && negb (bool_decide (txt ∈ seen)).

(** The [for tag in soup.find_all([...])] loop, on the tags still to
    visit, the matches so far and the set of texts seen. *)
Fixpoint match_loop (kw_lower : string) (tags : list node)
    (matches : list string) (seen : gset string) : list string :=
  match tags with
  | [] => matches
  | tag :: rest =>
      let txt := get_text " " true tag in
      if is_match kw_lower txt seen
      then match_loop kw_lower rest (matches ++ [txt]) ({[txt]} ∪ seen)
      else match_loop kw_lower rest matches seen
  end.

Definition page_matches (sp : soup) (keyword : string) : list string :=
  match_loop (Str.lower keyword) (find_all MATCH_TAGS sp) [] ∅.

Definition JInt (n : nat) : json := JNum (Z.of_nat n).

Definition page_request (page_url : string) : Request :=
  {| url := page_url; params := []; headers := REQUEST_HEADERS; timeout := 15 |}.

(** Lines 115-153: what [scrape_url] does with the parsed page. *)
Definition scrape_soup `{Env} (sp : soup) (page_url keyword : string) : M json :=
  let sp := decompose_all NOISE_TAGS sp in
  let title := page_title sp page_url in
  let description := page_description sp in
  let matches := page_matches sp keyword in
  images ← _collect_images sp page_url;
  mret (JObj [("mode", JStr "scrape");
              ("keyword", JStr keyword);
              ("url", JStr page_url);
              ("title", JStr title);
              ("description", JStr description);
              ("matches", JArr (map JStr (firstn 20 matches)));
              ("match_count", JInt (length matches));
              ("images", JArr images);
              ("image_count", JInt (length images))]).

(** Lines 107-113, then the rest. *)
Definition scrape_url `{Env} (page_url keyword : string) : M json :=
  resp ← requests_get (page_request page_url);
  _ ← raise_for_status resp;
  let resp := set_encoding resp (Str.or_else (default "" (apparent_encoding resp)) "utf-8") in
  sp ← lift (BeautifulSoup (text resp));
  scrape_soup sp page_url keyword.

(** ** Searching (lines 225-281) *)

Definition search_hit (item : json) : outcome json :=
  title ← py_get item "title" (JStr "");
  u ← py_get item "url" (JStr "");
  snippet ← py_get item "description" (JStr "");
  meta_url ← py_get item "meta_url" (JObj []);
  host ← py_get meta_url "hostname" (JStr "");
  mret (JObj [("title", title); ("url", u); ("snippet", snippet);
              ("display_url", host)]).

(** The [for item in ...: results.append(...)] loop. *)
Fixpoint hits_loop (items : list json) (results : list json) : outcome (list json) :=
  match items with
  | [] => mret results
  | item :: rest =>
      hit ← search_hit item;
      hits_loop rest (results ++ [hit])
  end.

(** Lines 243-250: the hits of the web-search reply. *)
Definition web_results (web_data : json) : outcome (list json) :=
  web ← py_get web_data "web" (JObj []);
  found ← py_get web "results" (JArr []);
  items ← py_iter found;
  hits_loop items [].

(** [_upload_image_to_s3(src)] for a value of the search response. A
    value that is no string is refused by [requests.get] before any
    request is sent, and the uploader turns the exception into [None]. *)
Definition upload_value `{Env} (src : json) : M (option string) :=
  match src with
  | JStr s => _upload_image_to_s3 s
  | _ => mret None
  end.

(** The [for item in ...[:MAX_IMAGES]] loop. *)
Fixpoint search_images_loop `{Env} (items : list json) (images : list json)
    : M (list json) :=
  match items with
  | [] => mret images
  | item :: rest =>
      props ← lift (py_get item "properties" (JObj []));
      src ← lift (py_get props "url" (JStr ""));
      if negb (truthy src) then search_images_loop rest images
      else
        s3_url ← upload_value src;
        match s3_url with
        | Some u =>
            if Str.is_empty u then search_images_loop rest images
            else
              alt ← lift (py_get item "title" (JStr ""));
              search_images_loop rest
                (images ++ [JObj [("original_url", src); ("s3_url", JStr u); ("alt", alt)]])
        | None => search_images_loop rest images
        end
  end.

Definition brave_headers `{Env} : list (string * string) :=
  [("Accept", "application/json");
   ("Accept-Encoding", "gzip");
   ("X-Subscription-Token", BRAVE_API_KEY)].

Definition web_search_request `{Env} (keyword : string) : Request :=
  {| url := "https://api.search.brave.com/res/v1/web/search";
     params := [("q", keyword); ("count", "10"); ("lang", "ja"); ("country", "jp")];
     headers := brave_headers;
     timeout := 15 |}.

Definition image_search_request `{Env} (keyword : string) : Request :=
  {| url := "https://api.search.brave.com/res/v1/images/search";
     params := [("q", keyword); ("count", Str.of_Z (Z.of_nat MAX_IMAGES));
                ("safesearch", "strict")];
     headers := brave_headers;
     timeout := 15 |}.

(** Lines 262-272: the images of the image-search reply. *)
Definition image_results `{Env} (img_data : json) : M (list json) :=
  found ← lift (py_get img_data "results" (JArr []));
  capped ← lift (py_slice found MAX_IMAGES);
  items ← lift (py_iter capped);
  search_images_loop items [].

Definition search_brave `{Env} (keyword : string) : M json :=
  web_resp ← requests_get (web_search_request keyword);
  _ ← raise_for_status web_resp;
  web_data ← response_json web_resp;
  results ← lift (web_results web_data);
  images ←
    (if Str.is_empty IMAGE_BUCKET then mret []
     else
       img_resp ← requests_get (image_search_request keyword);
       if ok img_resp then
         img_data ← response_json img_resp;
         image_results img_data
       else mret []);
  mret (JObj [("mode", JStr "search");
              ("keyword", JStr keyword);
              ("results", JArr results);
              ("result_count", JInt (length results));
              ("images", JArr images);
              ("image_count", JInt (length images))]).

(** ** The entry point (lines 56-101) *)

(** The [except] clauses of the handler, in their order. *)
Definition on_exception `{Env} (e : exn) : LambdaResponse :=
  match e with
  | Timeout _ => _error 504 "リクエストがタイムアウトしました (15秒)"
  | HTTPError status _ => _error 502 ("対象サイトの HTTP エラー: " +:+ Str.of_Z status)
  | TooManyRedirects _ => _error 502 "リダイレクトが多すぎます"
  | RequestException msg => _error 502 ("HTTP リクエスト失敗: " +:+ msg)
  | PyError _ msg => _error 500 ("内部エラー: " +:+ msg)
  end.

(** [json.loads(v)]: [Ret None] stands for the [JSONDecodeError] the
    handler catches; a value that is no string raises a [TypeError]. *)
Definition loads_value `{Env} (v : json) : outcome (option json) :=
  match v with
  | JStr s => Ret (json_loads s)
  | _ => type_error ("the JSON object must be str, bytes or bytearray, not "
                     +:+ type_name v)
  end.

(** Lines 58-61: the method, from an HTTP API (v2) or a REST API (v1)
    event. *)
Definition http_method_of (event : json) : outcome json :=
  request_context ← py_get event "requestContext" (JObj []);
  http ← py_get request_context "http" (JObj []);
  method ← py_get http "method" JNull;
  if truthy method then mret method
  else py_get event "httpMethod" (JStr "").

(** Lines 80-95: the work and the [except] clauses around it. *)
Definition run_request `{Env} (target_url keyword : string) : M (json + LambdaResponse) :=
  try_except
    (result ← (if negb (Str.is_empty target_url)
               then scrape_url target_url keyword
               else search_brave keyword);
     mret (inl result))
    (fun e => mret (inr (on_exception e))).

Definition lambda_handler `{Env} (event context : json) : M LambdaResponse :=
  http_method ← lift (http_method_of event);
  if is_str http_method "OPTIONS"
  then mret {| statusCode := 200; response_headers := CORS_HEADERS; body := "" |}
  else
    raw ← lift (py_get event "body" JNull);
    parsed ← lift (loads_value (if truthy raw then raw else JStr "{}"));
    match parsed with
    | None => mret (_error 400 "リクエストボディが不正な JSON です")
    | Some payload =>
        kw ← lift (py_get payload "keyword" (JStr ""));
        keyword ← lift (py_strip kw);
        u ← lift (py_get payload "url" (JStr ""));
        target_url ← lift (py_strip u);
        if Str.is_empty keyword
        then mret (_error 400 "keyword は必須パラメータです")
        else
          attempt ← run_request target_url keyword;
          match attempt with
          | inr response => mret response
          | inl result =>
              mret {| statusCode := 200;
                      response_headers := CORS_HEADERS;
                      body := json_dumps result |}
          end
    end.

(** ** Notions the properties are stated with *)

(** [v[key]] of a dictionary. *)
Definition field (key : string) (v : json) : option json :=
  match v with
  | JObj kvs => lookup_field key kvs
  | _ => None
  end.

(** The keyword and length filters of a match. *)
Definition accepts (kw_lower txt : string) : bool :=
  Str.contains kw_lower (Str.lower txt)
  && ((15 <? String.length txt)%nat && (String.length txt <? 1500)%nat).

Definition passes (keyword txt : string) : bool :=
  accepts (Str.lower keyword) txt.

(** The texts of a list in their order, each kept where it first occurs. *)
Fixpoint first_occurrences_from (seen l : list string) : list string :=
  match l with
  | [] => []
  | x :: rest =>
      if bool_decide (x ∈ seen) then first_occurrences_from seen rest
      else x :: first_occurrences_from (x :: seen) rest
  end.

Definition first_occurrences (l : list string) : list string :=
  first_occurrences_from [] l.

(** The flattened texts of the candidate elements, in document order. *)
Definition candidate_texts (sp : soup) : list string :=
  map (get_text " " true) (find_all MATCH_TAGS sp).

(** Two trees that differ only below tags with one of the names: such a
    subtree may be present in one and absent, or another, in the other. *)
Inductive same_outside (names : list string) : soup -> soup -> Prop :=
| same_nil : same_outside names [] []
| same_text s a b :
    same_outside names a b ->
    same_outside names (NavigableString s :: a) (NavigableString s :: b)
| same_comment s a b :
    same_outside names a b ->
    same_outside names (Comment s :: a) (Comment s :: b)
| same_tag nm ats cs cs' a b :
    nm ∉ names ->
    same_outside names cs cs' ->
    same_outside names a b ->
    same_outside names (Tag nm ats cs :: a) (Tag nm ats cs' :: b)
| same_skip_left nm ats cs a b :
    nm ∈ names ->
    same_outside names a b ->
    same_outside names (Tag nm ats cs :: a) b
| same_skip_right nm ats cs a b :
    nm ∈ names ->
    same_outside names a b ->
    same_outside names a (Tag nm ats cs :: b).

(** The eligible images of a page: what the loop of [_collect_images]
    would store with no cap, every upload answered by the same world;
    none when no bucket is configured. The traversal raises when
    [urljoin] raises on one of the sources. *)
Fixpoint eligible_loop `{Env} (base_url : string) (img_tags : list node)
    (results : list json) : M (list json) :=
  match img_tags with
  | [] => mret results
  | img :: rest =>
      let src := Str.strip (attr_get img "src" "") in
      if Str.is_empty src || Str.startswith src "data:"
      then eligible_loop base_url rest results
      else
        full_url ← lift (urljoin base_url src);
        if negb (is_http full_url)
        then eligible_loop base_url rest results
        else
          s3_url ← _upload_image_to_s3 full_url;
          match s3_url with
          | Some u =>
              if Str.is_empty u then eligible_loop base_url rest results
              else eligible_loop base_url rest
                     (results ++ [image_entry full_url u (JStr (attr_get img "alt" ""))])
          | None => eligible_loop base_url rest results
          end
  end.

Definition eligible_images `{Env} (sp : soup) (base_url : string) (w : World)
    : outcome (list json) :=
  if Str.is_empty IMAGE_BUCKET then Ret []
  else fst (eligible_loop base_url (List.filter has_src (find_all ["img"] sp)) [] w).

(** The source an image tag is harvested from: its stripped [src], when
    it is not empty and no [data:] URI. *)
Definition harvestable (img : node) (src : string) : Prop :=
  ∃ v, attr img "src" = Some v ∧ src = Str.strip v
       ∧ src ≠ "" ∧ Str.startswith src "data:" = false.

(** The sources of the image tags of a list, in their order: the
    stripped [src] of each tag that has one, when it is not empty and no
    [data:] URI. *)
Definition harvest_source (img : node) : list string :=
  match attr img "src" with
  | Some v =>
      if Str.is_empty (Str.strip v) || Str.startswith (Str.strip v) "data:" then []
      else [Str.strip v]
  | None => []
  end.

Definition harvest_sources (imgs : list node) : list string :=
  flat_map harvest_source imgs.

(** The sources resolved against the base address, one after the other;
    the exception of the first one on which [urljoin] raises. *)
Fixpoint resolve_all `{Env} (base_url : string) (srcs : list string)
    : outcome (list string) :=
  match srcs with
  | [] => mret []
  | src :: rest =>
      full_url ← urljoin base_url src;
      others ← resolve_all base_url rest;
      mret (full_url :: others)
  end.

(** What an upload leaves in the trace, latest first: its request, and
    the object it stored if it came that far. *)
Definition upload_events (img_url : string) (evs : list io_event) : Prop :=
  evs = [Get (image_request img_url)]
  ∨ ∃ bucket ext body ctype,
      evs = [PutObject bucket (storage_key img_url ext) body ctype;
             Get (image_request img_url)].

(** The address comes from an image tag of the list: its source,
    resolved against the base address, with an http or https prefix. *)
Definition harvested_from `{Env} (base_url : string) (imgs : list node)
    (full_url : string) : Prop :=
  ∃ img src, img ∈ imgs ∧ harvestable img src
             ∧ urljoin base_url src = Ret full_url ∧ is_http full_url = true.

(** The event is the request or the stored object of an upload of such
    an address. *)
Definition harvest_event `{Env} (base_url : string) (imgs : list node)
    (ev : io_event) : Prop :=
  ∃ full_url, harvested_from base_url imgs full_url
    ∧ match ev with
      | Get rq => rq = image_request full_url
      | PutObject _ key _ _ => ∃ ext, key = storage_key full_url ext
      end.

(** The entry of the result records such an address. *)
Definition harvest_entry `{Env} (base_url : string) (imgs : list node)
    (entry : json) : Prop :=
  ∃ full_url s3_url alt, harvested_from base_url imgs full_url
    ∧ entry = image_entry full_url s3_url alt.

(** The eligible images of an image-search reply: what the loop of
    [search_brave] would store from all of its results. *)
Definition search_eligible `{Env} (img_data : json) (w : World) : list json :=
  match py_get img_data "results" (JArr []) ≫= py_iter with
  | Ret items =>
      match search_images_loop items [] w with
      | (Ret l, _) => l
      | (Raise _, _) => []
      end
  | Raise _ => []
  end.

(** The fault classes of a request and the status each one is answered
    with. *)
Inductive fault : Type :=
| MalformedJSON
| MissingKeyword
| UpstreamTimeout
| UpstreamHTTPError
| UpstreamRedirects
| RequestFailure
| InternalError.

Definition fault_status (f : fault) : Z :=
  match f with
  | MalformedJSON | MissingKeyword => 400
  | UpstreamTimeout => 504
  | UpstreamHTTPError | UpstreamRedirects | RequestFailure => 502
  | InternalError => 500
  end.

Definition fault_of_exception (e : exn) : fault :=
  match e with
  | Timeout _ => UpstreamTimeout
  | HTTPError _ _ => UpstreamHTTPError
  | TooManyRedirects _ => UpstreamRedirects
  | RequestException _ => RequestFailure
  | PyError _ _ => InternalError
  end.

(** A field of the request body that is absent or a string, stripped. *)
Definition text_field (key : string) (payload : list (string * json)) (s : string) : Prop :=
  match lookup_field key payload with
  | None => s = ""
  | Some (JStr v) => s = Str.strip v
  | Some _ => False
  end.

(** The event is a request, other than the CORS preflight, whose body is
    the text [raw] (["{}"] when the event has none). *)
Definition posts (event : json) (raw : string) : Prop :=
  ∃ m b, http_method_of event = Ret m ∧ is_str m "OPTIONS" = false
         ∧ py_get event "body" JNull = Ret b
         ∧ (if truthy b then b else JStr "{}") = JStr raw.

(** The fault of a request in a world. *)
Inductive request_fault `{Env} (event : json) (w : World) : fault -> Prop :=
| fault_malformed raw :
    posts event raw -> json_loads raw = None ->
    request_fault event w MalformedJSON
| fault_keyword raw payload target_url :
    posts event raw -> json_loads raw = Some (JObj payload) ->
    text_field "keyword" payload "" ->
    text_field "url" payload target_url ->
    request_fault event w MissingKeyword
| fault_upstream raw payload keyword target_url e w' :
    posts event raw -> json_loads raw = Some (JObj payload) ->
    text_field "keyword" payload keyword -> keyword ≠ "" ->
    text_field "url" payload target_url ->
    (if negb (Str.is_empty target_url)
     then scrape_url target_url keyword
     else search_brave keyword) w = (Raise e, w') ->
    request_fault event w (fault_of_exception e).

(** ** Sample libraries, pages and worlds

    Stand-ins for the library functions, enough to run the model on the
    inputs below: a JSON printer for values whose strings need no
    escape, a reader that knows a finite list of documents, a parser
    that knows a finite list of pages and rejects one markup, and a
    resolver for absolute and same-directory references that rejects
    one reference. The reader takes every text outside its list for one
    that is no JSON, so the samples post only documents of the list and
    texts that are no JSON. *)

Module Sample.

Definition quote : string := String (ascii_of_nat 34) EmptyString.

Fixpoint dumps (v : json) : string :=
  match v with
  | JNull => "null"
  | JBool b => if b then "true" else "false"
  | JNum n => Str.of_Z n
  | JStr s => quote +:+ s +:+ quote
  | JArr l => "[" +:+ Str.join ", " (map dumps l) +:+ "]"
  | JObj kvs =>
      "{" +:+ Str.join ", "
                (map (fun kv => quote +:+ fst kv +:+ quote +:+ ": " +:+ dumps (snd kv)) kvs)
          +:+ "}"
  end.

Definition loads (documents : list json) (s : string) : option json :=
  head (List.filter (fun v => String.eqb (dumps v) s) documents).

Fixpoint lookup_page (t : string) (pages : list (string * soup)) : soup :=
  match pages with
  | [] => []
  | (html, sp) :: rest => if String.eqb html t then sp else lookup_page t rest
  end.

(** The bytes of an ASCII text, and back. *)
Fixpoint ascii_text (bs : bytes) : string :=
  match bs with
  | [] => EmptyString
  | b :: bs' => String (ascii_of_N (Z.to_N b)) (ascii_text bs')
  end.

(** The reference up to its last slash. *)
Fixpoint dirname (s : string) : string :=
  match s with
  | EmptyString => EmptyString
  | String c s' =>
      let d := dirname s' in
      if Str.is_empty d
      then (if Ascii.eqb c "/" then String c EmptyString else EmptyString)
      else String c d
  end.

Fixpoint has_scheme (s : string) : bool :=
  match s with
  | EmptyString => false
  | String c s' =>
      if Ascii.eqb c ":" then true
      else if Ascii.eqb c "/" then false
      else has_scheme s'
  end.

Definition drop2 (s : string) : string :=
  match s with String _ (String _ r) => r | _ => EmptyString end.

Definition resolve (base ref : string) : string :=
  if has_scheme ref then ref
  else if Str.startswith ref "./" then dirname base +:+ drop2 ref
  else dirname base +:+ ref.

(** [urljoin] raises [ValueError] on a reference whose host opens a
    bracket that is never closed. *)
Definition join (base ref : string) : outcome string :=
  if String.eqb ref "//[" then Raise (PyError "ValueError" "Invalid IPv6 URL")
  else Ret (resolve base ref).

(** A marked section with an unknown keyword, which [html.parser]
    rejects. *)
Definition rejected_html : string := "<![foo]>".

Definition parse (pages : list (string * soup)) (t : string) : outcome soup :=
  if String.eqb t rejected_html
  then Raise (PyError "ParserRejectedMarkup"
                "unknown status keyword 'foo' in marked section")
  else Ret (lookup_page t pages).

Definition extensions (content_type : string) : option string :=
  if String.eqb content_type "image/jpeg" then Some ".jpg"
  else if String.eqb content_type "image/png" then Some ".png"
  else if String.eqb content_type "image/gif" then Some ".gif"
  else None.

Definition env (pages : list (string * soup)) (documents : list json)
    (bucket : string) : Env :=
  {| BeautifulSoup := parse pages;
     urljoin := join;
     guess_extension := extensions;
     decode := fun _ bs => ascii_text bs;
     json_loads := loads documents;
     json_dumps := dumps;
     IMAGE_BUCKET := bucket;
     AWS_REGION := "ap-northeast-1";
     BRAVE_API_KEY := "key" |}.

Definition reply (status : Z) (content_type : string) (payload : string) : outcome Response :=
  Ret {| status_code := status;
         resp_headers := [("Content-Type", content_type)];
         content := encode payload;
         apparent_encoding := None;
         encoding := None |}.

(** A world whose servers answer by the URL alone and whose store
    accepts every object. *)
Definition world (server : string -> outcome Response) : World :=
  {| net := fun _ rq => server (url rq);
     store := fun _ _ _ => None;
     clock := 0;
     trace := [] |}.

(** A page about cats, with boilerplate in a [nav] and a [script]. *)
Definition page_url : string := "https://site.test/dir/page.html".

Definition page_html : string :=
  "<html><head><title>Cats</title>" +:+
  "<meta name='Description' content=' All about cats '></head><body>" +:+
  "<nav><p>Every cat page of this site is listed here.</p></nav>" +:+
  "<p>The cat sat on the mat all day long.</p>" +:+
  "<ul><li>The cat sat on the mat all day long.</li><li>A cat.</li>" +:+
  "<li>Dogs are not mentioned in this page.</li></ul>" +:+
  "<script>var cat = 'the cat of the script';</script>" +:+
  "<img src='./a.jpg' alt='a cat'><img src='data:image/png;base64,AAAA'>" +:+
  "<img src='mailto:cat@site.test'><img alt='no source'>" +:+
  "<img src='https://cdn.test/b.png'></body></html>".

Definition page_body (boilerplate : list node) : list node :=
  boilerplate ++
  [Tag "p" [] [NavigableString "The cat sat on the mat all day long."];
   Tag "ul" []
     [Tag "li" [] [NavigableString "The cat sat on the mat all day long."];
      Tag "li" [] [NavigableString "A cat."];
      Tag "li" [] [NavigableString "Dogs are not mentioned in this page."]];
   Tag "script" [] [NavigableString "var cat = 'the cat of the script';"];
   Tag "img" [("src", "./a.jpg"); ("alt", "a cat")] [];
   Tag "img" [("src", "data:image/png;base64,AAAA")] [];
   Tag "img" [("src", "mailto:cat@site.test")] [];
   Tag "img" [("alt", "no source")] [];
   Tag "img" [("src", "https://cdn.test/b.png")] []].

Definition page_tree (boilerplate : list node) : soup :=
  [Tag "html" []
     [Tag "head" []
        [Tag "title" [] [NavigableString "Cats"];
         Tag "meta" [("name", "Description"); ("content", " All about cats ")] []];
      Tag "body" [] (page_body boilerplate)]].

Definition page_soup : soup :=
  page_tree [Tag "nav" [] [Tag "p" [] [NavigableString "Every cat page of this site is listed here."]]].

(** The same page with another menu and a form. *)
Definition other_soup : soup :=
  page_tree [Tag "nav" [] [Tag "h1" [] [NavigableString "Cat food and cat toys, in a menu."]];
             Tag "form" [] [Tag "p" [] [NavigableString "Search this site for a cat."]]].

(** A page with an image whose source is no address, and the address
    of a page whose markup the parser rejects. *)
Definition broken_url : string := "https://site.test/dir/broken.html".

Definition broken_html : string :=
  "<html><body><p>The cat sat on the mat all day long.</p>" +:+
  "<img src='//['><img src='./a.jpg'></body></html>".

Definition broken_soup : soup :=
  [Tag "html" []
     [Tag "body" []
        [Tag "p" [] [NavigableString "The cat sat on the mat all day long."];
         Tag "img" [("src", "//[")] [];
         Tag "img" [("src", "./a.jpg")] []]]].

Definition rejected_url : string := "https://site.test/dir/rejected.html".

Definition site (u : string) : outcome Response :=
  if String.eqb u page_url then reply 200 "text/html" page_html
  else if String.eqb u broken_url then reply 200 "text/html" broken_html
  else if String.eqb u rejected_url then reply 200 "text/html" rejected_html
  else if String.eqb u "https://site.test/dir/a.jpg" then reply 200 "image/jpeg" "JFIF"
  else if String.eqb u "https://cdn.test/b.png" then reply 200 "image/png; charset=binary" "PNG"
  else reply 404 "text/plain" "not found".

Definition site_env : Env :=
  env [(page_html, page_soup); (broken_html, broken_soup)] [] "bucket".

(** A search service that finds one page and [n] images, the first of
    which cannot be fetched; it answers the image search with the given
    status. *)
Definition image_item (i : nat) : json :=
  JObj [("title", JStr ("cat " +:+ Str.of_Z (Z.of_nat i)));
        ("properties",
         JObj [("url", JStr ("https://img.test/" +:+ Str.of_Z (Z.of_nat i) +:+ ".png"))])].

Definition images_doc (n : nat) : json :=
  JObj [("results", JArr (map image_item (seq 0 n)))].

Definition web_doc : json :=
  JObj [("web",
         JObj [("results",
                JArr [JObj [("title", JStr "Cats");
                            ("url", JStr "https://site.test/dir/page.html");
                            ("description", JStr "All about cats");
                            ("meta_url", JObj [("hostname", JStr "site.test")])]])])].

Definition search_service (image_status : Z) (n : nat) (u : string) : outcome Response :=
  if String.eqb u "https://api.search.brave.com/res/v1/web/search"
  then reply 200 "application/json" (dumps web_doc)
  else if String.eqb u "https://api.search.brave.com/res/v1/images/search"
  then reply image_status "application/json" (dumps (images_doc n))
  else if String.eqb u "https://img.test/0.png" then reply 404 "text/plain" "not found"
  else if Str.startswith u "https://img.test/" then reply 200 "image/png" "PNG"
  else reply 404 "text/plain" "not found".

(** Request bodies: a scrape, a search, a keyword that is a number, a
    page that is missing, a keyword that is blank, and the two pages
    that cannot be scraped. *)
Definition scrape_request : json :=
  JObj [("keyword", JStr "cat"); ("url", JStr page_url)].

Definition search_request : json := JObj [("keyword", JStr " cat ")].

Definition number_request : json := JObj [("keyword", JNum 123)].

Definition missing_page_request : json :=
  JObj [("keyword", JStr "cat"); ("url", JStr "https://site.test/missing")].

Definition blank_request : json := JObj [("keyword", JStr "  ")].

Definition broken_request : json :=
  JObj [("keyword", JStr "cat"); ("url", JStr broken_url)].

Definition rejected_request : json :=
  JObj [("keyword", JStr "cat"); ("url", JStr rejected_url)].

Definition search_env (n : nat) (bucket : string) : Env :=
  env [(page_html, page_soup); (broken_html, broken_soup)]
      [JObj []; scrape_request; search_request; number_request; missing_page_request;
       blank_request; broken_request; rejected_request; web_doc; images_doc n]
      bucket.

(** A REST API event that posts the body. *)
Definition post (payload : json) : json :=
  JObj [("httpMethod", JStr "POST"); ("body", JStr (dumps payload))].

(** A REST API event whose body breaks off after its first brace. *)
Definition cut_post : json :=
  JObj [("httpMethod", JStr "POST"); ("body", JStr "{")].

(** A network on which every request times out. *)
Definition timing_out (u : string) : outcome Response :=
  Raise (Timeout "Read timed out. (read timeout=15)").


(** A page of twenty-five paragraphs about cats, all different. *)
Definition long_soup : soup :=
  map (fun i => Tag "p" []
                  [NavigableString ("Cat number " +:+ Str.of_Z (Z.of_nat i)
                                    +:+ " sat on the mat.")])
      (seq 0 25).

(** The result of a run, [null] if it raised. *)
Definition result_of (run : outcome json * World) : json :=
  match fst run with Ret r => r | Raise _ => JNull end.

Definition list_of {A : Type} (o : outcome (list A)) : list A :=
  match o with Ret l => l | Raise _ => [] end.

End Sample.

(** ** Further notions *)

(** The dictionary [scrape_url] returns for a cleaned page and the
    images harvested from it. *)
Definition scrape_dict (page_url keyword : string) (cleaned : soup)
    (images : list json) : json :=
  JObj [("mode", JStr "scrape");
        ("keyword", JStr keyword);
        ("url", JStr page_url);
        ("title", JStr (page_title cleaned page_url));
        ("description", JStr (page_description cleaned));
        ("matches", JArr (map JStr (firstn 20 (page_matches cleaned keyword))));
        ("match_count", JInt (length (page_matches cleaned keyword)));
        ("images", JArr images);
        ("image_count", JInt (length images))].

(** The text of a fetched page that is given to the parser: the body of
    the reply, read in the encoding that lines 111-113 set. *)
Definition page_text `{Env} (resp : Response) : string :=
  text (set_encoding resp (Str.or_else (default "" (apparent_encoding resp)) "utf-8")).

(** The event is a request for the keyword, which is not empty, and the
    address, both stripped; the address is empty when the body has
    none. *)
Definition asks `{Env} (event : json) (keyword target_url : string) : Prop :=
  ∃ raw payload,
    posts event raw ∧ json_loads raw = Some (JObj payload)
    ∧ text_field "keyword" payload keyword ∧ keyword ≠ ""
    ∧ text_field "url" payload target_url.

(** The first request the work of such a request makes. *)
Definition first_request `{Env} (target_url keyword : string) : Request :=
  if Str.is_empty target_url then web_search_request keyword
  else page_request target_url.

(** A lower-case hexadecimal digit. *)
Definition is_lower_hex (c : ascii) : bool :=
  let n := nat_of_ascii c in
  ((48 <=? n) && (n <=? 57)) || ((97 <=? n) && (n <=? 102)).

Fixpoint all_chars (p : ascii -> bool) (s : string) : bool :=
  match s with
  | EmptyString => true
  | String c s' => p c && all_chars p s'
  end.

(** The address and alternative text an image tag is a candidate with,
    if it is one: the tags the loop of [_collect_images] does not skip
    and whose source [urljoin] resolves. *)
Definition image_candidate `{Env} (base_url : string) (img : node)
    : list (string * string) :=
  let src := Str.strip (attr_get img "src" "") in
  if Str.is_empty src || Str.startswith src "data:" then []
  else
    match urljoin base_url src with
    | Ret full_url =>
        if is_http full_url then [(full_url, attr_get img "alt" "")] else []
    | Raise _ => []
    end.

Definition image_candidates `{Env} (base_url : string) (imgs : list node)
    : list (string * string) :=
  flat_map (image_candidate base_url) imgs.

(** The entry records the address and the text of the candidate. *)
Definition entry_of (entry : json) (candidate : string * string) : Prop :=
  ∃ s3_url, entry = image_entry candidate.1 s3_url (JStr candidate.2).

(** The address of an image result of a search: its [properties.url],
    when that is a string that is not empty. *)
Definition search_source (item : json) : option string :=
  match py_get item "properties" (JObj []) ≫= λ props, py_get props "url" (JStr "") with
  | Ret (JStr s) => if Str.is_empty s then None else Some s
  | _ => None
  end.

(** The event is the request or the stored object of an upload of the
    address of one of the items. *)
Definition search_event (items : list json) (ev : io_event) : Prop :=
  ∃ item s, item ∈ items ∧ search_source item = Some s
    ∧ match ev with
      | Get rq => rq = image_request s
      | PutObject _ key _ _ => ∃ ext, key = storage_key s ext
      end.

Definition is_get (ev : io_event) : bool :=
  match ev with Get _ => true | PutObject _ _ _ _ => false end.

(** The hit a result of the web search is mapped to: its fields, the
    empty text where one is missing, and the host name of its
    [meta_url]. *)
Definition field_or_empty (key : string) (kvs : list (string * json)) : json :=
  default (JStr "") (lookup_field key kvs).

Definition hit_of (item : json) : json :=
  match item with
  | JObj kvs =>
      JObj [("title", field_or_empty "title" kvs);
            ("url", field_or_empty "url" kvs);
            ("snippet", field_or_empty "description" kvs);
            ("display_url",
             match lookup_field "meta_url" kvs with
             | Some (JObj meta) => field_or_empty "hostname" meta
             | _ => JStr ""
             end)]
  | _ => JNull
  end.

(** A result of the web search of the expected shape: a dictionary whose
    [meta_url], when it has one, is a dictionary. *)
Definition hit_shaped (item : json) : Prop :=
  ∃ kvs, item = JObj kvs
         ∧ match lookup_field "meta_url" kvs with
           | None | Some (JObj _) => True
           | Some _ => False
           end.

(** ** Further samples *)

Module Cases.

(** A search service whose web search answers with a JSON list. *)
Definition list_service (u : string) : outcome Response :=
  Sample.reply 200 "application/json" (Sample.dumps (JArr [])).

Definition list_env : Env :=
  Sample.env [] [Sample.search_request; JArr []] "bucket".

(** A server that sends an image with no header at all. *)
Definition bare_image (u : string) : outcome Response :=
  Ret {| status_code := 200; resp_headers := []; content := encode "JFIF";
         apparent_encoding := None; encoding := None |}.

End Cases.

(** * Properties *)

Ltac run :=
  unfold mbind, M_bind, bind, mret, M_ret, ret, lift, raise, try_except,
    outcome_bind, outcome_ret in *.

(** ** Induction on page elements *)

Lemma node_ind' (P : node -> Prop) :
  (∀ s, P (NavigableString s)) ->
  (∀ s, P (Comment s)) ->
  (∀ nm ats cs, Forall P cs -> P (Tag nm ats cs)) ->
  ∀ n, P n.
Proof.
  intros Htext Hcomment Htag. fix IH 1. intros [s|s|nm ats cs].
  - apply Htext.
  - apply Hcomment.
  - apply Htag. induction cs as [|c cs IHcs]; constructor; [apply IH | apply IHcs].
Qed.

(** ** The matches of a page *)

Lemma is_match_accepts kw_lower txt seen :
  is_match kw_lower txt seen
  = accepts kw_lower txt && negb (bool_decide (txt ∈ seen)).
Proof. reflexivity. Qed.

Lemma first_occurrences_from_ext (s1 s2 l : list string) :
  (∀ x, x ∈ s1 ↔ x ∈ s2) ->
  first_occurrences_from s1 l = first_occurrences_from s2 l.
Proof.
  revert s1 s2. induction l as [|x l IH]; intros s1 s2 Hs; simpl; [done|].
  rewrite (bool_decide_ext (x ∈ s1) (x ∈ s2)) by apply Hs.
  destruct (bool_decide (x ∈ s2)); [by apply IH|].
  f_equal. apply IH. intros y. rewrite !elem_of_cons, Hs. done.
Qed.

(** The loop appends, to the matches it starts with, the accepted texts
    not seen before, each once. *)
Lemma match_loop_spec (kw_lower : string) (tags : list node) (acc : list string)
    (seen : gset string) (past : list string) :
  (∀ x, x ∈ seen ↔ x ∈ past) ->
  match_loop kw_lower tags acc seen
  = acc ++ first_occurrences_from past
             (List.filter (accepts kw_lower) (map (get_text " " true) tags)).
Proof.
  revert acc seen past.
  induction tags as [|tag tags IH]; intros acc seen past Hseen; simpl.
  - by rewrite app_nil_r.
  - rewrite is_match_accepts.
    destruct (accepts kw_lower (get_text " " true tag)) eqn:Hacc; simpl.
    + rewrite (bool_decide_ext _ (get_text " " true tag ∈ past)) by apply Hseen.
      destruct (bool_decide (get_text " " true tag ∈ past)) eqn:Hin; simpl.
      * by apply IH.
      * rewrite (IH _ _ (get_text " " true tag :: past)).
        -- by rewrite <- app_assoc.
        -- intros x. rewrite elem_of_union, elem_of_singleton, elem_of_cons, Hseen.
           done.
    + by apply IH.
Qed.

Lemma page_matches_spec (sp : soup) (keyword : string) :
  page_matches sp keyword
  = first_occurrences (List.filter (passes keyword) (candidate_texts sp)).
Proof.
  unfold page_matches, first_occurrences, candidate_texts.
  rewrite (match_loop_spec _ _ _ _ []); [done|].
  intros x. rewrite elem_of_empty, elem_of_nil. done.
Qed.

Lemma first_occurrences_from_elem (seen l : list string) (x : string) :
  x ∈ first_occurrences_from seen l -> x ∈ l ∧ x ∉ seen.
Proof.
  revert seen. induction l as [|y l IH]; intros seen; simpl.
  - by intros ?%elem_of_nil.
  - destruct (bool_decide (y ∈ seen)) eqn:Hy.
    + intros [? ?]%IH. split; [by right | done].
    + apply bool_decide_eq_false in Hy.
      intros [-> | [? Hn]%IH]%elem_of_cons.
      * split; [by left | done].
      * split; [by right|]. intros ?. apply Hn. by right.
Qed.

Lemma first_occurrences_from_NoDup (seen l : list string) :
  NoDup (first_occurrences_from seen l).
Proof.
  revert seen. induction l as [|y l IH]; intros seen; simpl.
  - constructor.
  - destruct (bool_decide (y ∈ seen)); [apply IH|].
    constructor; [|apply IH].
    intros [_ Hn]%first_occurrences_from_elem. apply Hn. by left.
Qed.

Lemma passes_spec (keyword txt : string) :
  passes keyword txt = true ->
  Str.contains (Str.lower keyword) (Str.lower txt) = true
  ∧ (15 < String.length txt < 1500)%nat.
Proof.
  unfold passes, accepts. rewrite !andb_true_iff, !Nat.ltb_lt. tauto.
Qed.

Lemma page_matches_filtered (sp : soup) (keyword : string) :
  Forall (λ t, Str.contains (Str.lower keyword) (Str.lower t) = true
               ∧ (15 < String.length t < 1500)%nat)
         (page_matches sp keyword)
  ∧ NoDup (page_matches sp keyword).
Proof.
  rewrite page_matches_spec. split.
  - apply Forall_forall. intros t [Ht _]%first_occurrences_from_elem.
    apply list_elem_of_In, filter_In in Ht as [_ Ht]. by apply passes_spec.
  - apply first_occurrences_from_NoDup.
Qed.

(** ** The uploader *)

Lemma upload_cases `{Env} (img_url : string) (w : World) :
  ∃ o w' evs, _upload_image_to_s3 img_url w = (Ret o, w')
    ∧ trace w' = evs ++ trace w
    ∧ upload_events img_url evs
    ∧ (∀ u, o = Some u ->
         ∃ resp, net w (clock w) (image_request img_url) = Ret resp
           ∧ u = storage_url (storage_key img_url (extension_of (content_type_of resp)))).
Proof.
  unfold _upload_image_to_s3, raise_for_status, requests_get, put_object. run.
  destruct (net w (clock w) (image_request img_url)) as [resp|e] eqn:Hnet.
  - destruct (is_error_status resp).
    + eexists None, _, [_]. simpl. split_and!; [done|done|by left|done].
    + destruct (negb (Str.startswith (content_type_of resp) "image/")).
      * eexists None, _, [_]. simpl. split_and!; [done|done|by left|done].
      * simpl. destruct (store _ _ _ _) as [e|].
        -- eexists None, _, [_; _]. simpl. split_and!; [done|done| |done].
           right. by eexists _, _, _, _.
        -- eexists (Some _), _, [_; _]. simpl. split_and!; [done|done| |].
           ++ right. by eexists _, _, _, _.
           ++ intros u [= <-]. by eexists.
  - eexists None, _, [_]. simpl. split_and!; [done|done|by left|done].
Qed.

Lemma upload_returns `{Env} (img_url : string) (w : World) :
  ∃ o w', _upload_image_to_s3 img_url w = (Ret o, w').
Proof. destruct (upload_cases img_url w) as (o & w' & _ & Hrun & _). eauto. Qed.

(** ** The image loop of a page *)

Lemma strip_empty : Str.strip "" = "".
Proof. reflexivity. Qed.

Lemma is_empty_true (s : string) : Str.is_empty s = true ↔ s = "".
Proof. destruct s; simpl; split; congruence. Qed.

Lemma is_empty_false (s : string) : Str.is_empty s = false ↔ s ≠ "".
Proof. destruct s; simpl; split; congruence. Qed.

(** One turn of the loop of [_collect_images]. *)
Lemma collect_loop_cons `{Env} (base_url : string) (img : node) (rest : list node)
    (acc : list json) (w : World) :
  collect_loop base_url (img :: rest) acc w
  = if (MAX_IMAGES <=? length acc)%nat then (Ret acc, w)
    else if Str.is_empty (Str.strip (attr_get img "src" ""))
            || Str.startswith (Str.strip (attr_get img "src" "")) "data:"
    then collect_loop base_url rest acc w
    else match urljoin base_url (Str.strip (attr_get img "src" "")) with
         | Raise e => (Raise e, w)
         | Ret full_url =>
             if negb (is_http full_url) then collect_loop base_url rest acc w
             else match _upload_image_to_s3 full_url w with
                  | (Ret (Some u), w1) =>
                      if Str.is_empty u then collect_loop base_url rest acc w1
                      else collect_loop base_url rest
                             (acc ++ [image_entry full_url u (JStr (attr_get img "alt" ""))])
                             w1
                  | (Ret None, w1) => collect_loop base_url rest acc w1
                  | (Raise e, w1) => (Raise e, w1)
                  end
         end.
Proof.
  cbn [collect_loop]. destruct (MAX_IMAGES <=? length acc)%nat; [done|].
  destruct (_ || _); [done|]. run.
  destruct (urljoin base_url _) as [full_url|e]; [|done].
  destruct (negb (is_http full_url)); [done|].
  destruct (_upload_image_to_s3 full_url w) as [[[u|]|e] w1]; try done.
  by destruct (Str.is_empty u).
Qed.

(** One turn of the loop with no cap. *)
Lemma eligible_loop_cons `{Env} (base_url : string) (img : node) (rest : list node)
    (acc : list json) (w : World) :
  eligible_loop base_url (img :: rest) acc w
  = if Str.is_empty (Str.strip (attr_get img "src" ""))
       || Str.startswith (Str.strip (attr_get img "src" "")) "data:"
    then eligible_loop base_url rest acc w
    else match urljoin base_url (Str.strip (attr_get img "src" "")) with
         | Raise e => (Raise e, w)
         | Ret full_url =>
             if negb (is_http full_url) then eligible_loop base_url rest acc w
             else match _upload_image_to_s3 full_url w with
                  | (Ret (Some u), w1) =>
                      if Str.is_empty u then eligible_loop base_url rest acc w1
                      else eligible_loop base_url rest
                             (acc ++ [image_entry full_url u (JStr (attr_get img "alt" ""))])
                             w1
                  | (Ret None, w1) => eligible_loop base_url rest acc w1
                  | (Raise e, w1) => (Raise e, w1)
                  end
         end.
Proof.
  cbn [eligible_loop]. destruct (_ || _); [done|]. run.
  destruct (urljoin base_url _) as [full_url|e]; [|done].
  destruct (negb (is_http full_url)); [done|].
  destruct (_upload_image_to_s3 full_url w) as [[[u|]|e] w1]; try done.
  by destruct (Str.is_empty u).
Qed.

(** When the loop with no cap returns, it has only appended to its
    results. *)
Lemma eligible_loop_extends `{Env} (base_url : string) (imgs : list node)
    (acc all : list json) (w w0 : World) :
  eligible_loop base_url imgs acc w = (Ret all, w0) -> ∃ more, all = acc ++ more.
Proof.
  revert acc w. induction imgs as [|img imgs IH]; intros acc w.
  - intros [= <- _]. exists []. by rewrite app_nil_r.
  - rewrite eligible_loop_cons.
    destruct (_ || _); [apply IH|].
    destruct (urljoin base_url _) as [full_url|e]; [|discriminate].
    destruct (negb (is_http full_url)); [apply IH|].
    destruct (_upload_image_to_s3 full_url w) as [[[u|]|e] w1];
      [|apply IH|discriminate].
    destruct (Str.is_empty u); [apply IH|].
    intros [more ->]%IH. eexists (_ :: more). by rewrite <- app_assoc.
Qed.

(** When the loop with no cap returns, the loop of the source returns
    the first [MAX_IMAGES] of what it collects. *)
Lemma collect_loop_capped `{Env} (base_url : string) (imgs : list node)
    (acc all : list json) (w w0 : World) :
  (length acc ≤ MAX_IMAGES)%nat ->
  eligible_loop base_url imgs acc w = (Ret all, w0) ->
  ∃ w', collect_loop base_url imgs acc w = (Ret (firstn MAX_IMAGES all), w').
Proof.
  revert acc w. induction imgs as [|img imgs IH]; intros acc w Hlen.
  - intros [= <- _]. exists w. cbn [collect_loop]. by rewrite firstn_all2.
  - intros Hall. rewrite collect_loop_cons.
    destruct (MAX_IMAGES <=? length acc)%nat eqn:Hcap.
    + apply Nat.leb_le in Hcap.
      destruct (eligible_loop_extends _ _ _ _ _ _ Hall) as [more ->].
      exists w. rewrite take_app_length'; [done | lia].
    + apply Nat.leb_gt in Hcap. rewrite eligible_loop_cons in Hall.
      destruct (_ || _); [by apply IH|].
      destruct (urljoin base_url _) as [full_url|e]; [|discriminate].
      destruct (negb (is_http full_url)); [by apply IH|].
      destruct (_upload_image_to_s3 full_url w) as [[[u|]|e] w1];
        [|by apply IH|discriminate].
      destruct (Str.is_empty u); [by apply IH|].
      apply IH; [|done]. rewrite length_app. simpl. lia.
Qed.

(** What the loop of the source returns has at most [MAX_IMAGES]
    entries. *)
Lemma collect_loop_length `{Env} (base_url : string) (imgs : list node)
    (acc images : list json) (w w' : World) :
  (length acc ≤ MAX_IMAGES)%nat ->
  collect_loop base_url imgs acc w = (Ret images, w') ->
  (length images ≤ MAX_IMAGES)%nat.
Proof.
  revert acc w. induction imgs as [|img imgs IH]; intros acc w Hlen.
  - by intros [= <- _].
  - rewrite collect_loop_cons.
    destruct (MAX_IMAGES <=? length acc)%nat eqn:Hcap; [by intros [= <- _]|].
    apply Nat.leb_gt in Hcap.
    destruct (_ || _); [by apply IH|].
    destruct (urljoin base_url _) as [full_url|e]; [|discriminate].
    destruct (negb (is_http full_url)); [by apply IH|].
    destruct (_upload_image_to_s3 full_url w) as [[[u|]|e] w1];
      [|by apply IH|discriminate].
    destruct (Str.is_empty u); [by apply IH|].
    apply IH. rewrite length_app. simpl. lia.
Qed.

Lemma collect_images_capped `{Env} (sp : soup) (base_url : string) (w : World)
    (eligible : list json) :
  eligible_images sp base_url w = Ret eligible ->
  ∃ w', _collect_images sp base_url w = (Ret (firstn MAX_IMAGES eligible), w').
Proof.
  unfold _collect_images, eligible_images.
  destruct (Str.is_empty IMAGE_BUCKET); [intros [= <-]; by exists w|].
  destruct (eligible_loop _ _ _ _) as [o w0] eqn:Hall. simpl. intros ->.
  apply (collect_loop_capped _ _ _ _ _ w0); [simpl; lia | done].
Qed.

Lemma collect_images_length `{Env} (sp : soup) (base_url : string) (w w' : World)
    (images : list json) :
  _collect_images sp base_url w = (Ret images, w') ->
  (length images ≤ MAX_IMAGES)%nat.
Proof.
  unfold _collect_images.
  destruct (Str.is_empty IMAGE_BUCKET); [intros [= <- _]; simpl; lia|].
  apply collect_loop_length. simpl. lia.
Qed.

(** ** Scraping a parsed page *)

(** [scrape_soup] returns when the harvest does, and this is its
    result. *)
Lemma scrape_soup_result `{Env} (sp : soup) (page_url keyword : string) (w w' : World)
    (images : list json) :
  _collect_images (decompose_all NOISE_TAGS sp) page_url w = (Ret images, w') ->
  scrape_soup sp page_url keyword w
  = (Ret (scrape_dict page_url keyword (decompose_all NOISE_TAGS sp) images), w').
Proof. intros Hc. unfold scrape_soup. run. by rewrite Hc. Qed.

Lemma scrape_soup_inv `{Env} (sp : soup) (page_url keyword : string) (w w' : World)
    (result : json) :
  scrape_soup sp page_url keyword w = (Ret result, w') ->
  ∃ images,
    _collect_images (decompose_all NOISE_TAGS sp) page_url w = (Ret images, w')
    ∧ result = scrape_dict page_url keyword (decompose_all NOISE_TAGS sp) images.
Proof.
  unfold scrape_soup. run.
  destruct (_collect_images _ _ _) as [[images|e] w1]; [|discriminate].
  intros [= <- <-]. by exists images.
Qed.

(** C1. For every parsed page and keyword the matches of the page are
    texts that contain the keyword without regard to case, are longer
    than 15 and shorter than 1500 characters, and are pairwise
    different: they are the accepted texts of the candidate elements in
    document order, each kept where it first occurs. Whenever the
    scrape returns a result, its [matches] are the first twenty of
    them, with the same three properties. *)
Theorem scrape_matches_filtered `{Env} (sp : soup) (page_url keyword : string) :
  let ms := page_matches (decompose_all NOISE_TAGS sp) keyword in
  Forall (λ t, Str.contains (Str.lower keyword) (Str.lower t) = true
               ∧ (15 < String.length t < 1500)%nat) ms
  ∧ NoDup ms
  ∧ ms = first_occurrences
           (List.filter (passes keyword)
              (candidate_texts (decompose_all NOISE_TAGS sp)))
  ∧ ∀ w result w',
      scrape_soup sp page_url keyword w = (Ret result, w') ->
      field "matches" result = Some (JArr (map JStr (firstn 20 ms)))
      ∧ Forall (λ t, Str.contains (Str.lower keyword) (Str.lower t) = true
                     ∧ (15 < String.length t < 1500)%nat) (firstn 20 ms)
      ∧ NoDup (firstn 20 ms).
Proof.
  intros ms.
  destruct (page_matches_filtered (decompose_all NOISE_TAGS sp) keyword) as [Hall Hnd].
  assert (NoDup (firstn 20 ms)) as Hnd20.
  { unfold ms. rewrite <- (take_drop 20 (page_matches _ _)) in Hnd.
    by apply NoDup_app in Hnd as [? _]. }
  split_and!; [done | done | apply page_matches_spec |].
  intros w result w' (images & _ & ->)%scrape_soup_inv.
  split_and!; [done | by apply Forall_take | done].
Qed.

Lemma scrape_matches_filtered_witness :
  field "matches"
    (Sample.result_of
       (@scrape_soup Sample.site_env Sample.page_soup Sample.page_url "CAT"
          (Sample.world Sample.site)))
  = Some (JArr (map JStr
                  (firstn 20 (page_matches (decompose_all NOISE_TAGS Sample.page_soup)
                                "CAT"))))
  ∧ Forall (λ t, Str.contains (Str.lower "CAT") (Str.lower t) = true
                 ∧ (15 < String.length t < 1500)%nat)
      (firstn 20 (page_matches (decompose_all NOISE_TAGS Sample.page_soup) "CAT"))
  ∧ NoDup (firstn 20 (page_matches (decompose_all NOISE_TAGS Sample.page_soup) "CAT")).
Proof.
  apply (proj2 (proj2 (proj2
           (@scrape_matches_filtered Sample.site_env Sample.page_soup Sample.page_url
              "CAT")))
           (Sample.world Sample.site) _
           (snd (@scrape_soup Sample.site_env Sample.page_soup Sample.page_url "CAT"
                   (Sample.world Sample.site)))).
  vm_compute. reflexivity.
Defined.

(** C7. Whenever the scrape of a parsed page returns a result, its
    [matches] are the first twenty of the full sequence of matches,
    taken in document order, and its [match_count] is the length of the
    full sequence, so that the count exceeds the number of matches
    returned when there are more than twenty. *)
Theorem scrape_matches_truncated `{Env} (sp : soup) (page_url keyword : string)
    (w w' : World) (result : json) :
  let full := first_occurrences
                (List.filter (passes keyword)
                   (candidate_texts (decompose_all NOISE_TAGS sp))) in
  scrape_soup sp page_url keyword w = (Ret result, w') ->
  field "matches" result = Some (JArr (map JStr (firstn 20 full)))
  ∧ field "match_count" result = Some (JInt (length full))
  ∧ length (firstn 20 full) = Nat.min 20 (length full).
Proof.
  intros full (images & _ & ->)%scrape_soup_inv.
  unfold full. rewrite <- page_matches_spec.
  split_and!; [reflexivity | reflexivity | apply length_firstn].
Qed.

Lemma scrape_matches_truncated_witness :
  field "matches"
    (Sample.result_of
       (@scrape_soup Sample.site_env Sample.long_soup Sample.page_url "cat"
          (Sample.world Sample.site)))
  = Some (JArr (map JStr
                  (firstn 20
                     (first_occurrences
                        (List.filter (passes "cat")
                           (candidate_texts
                              (decompose_all NOISE_TAGS Sample.long_soup)))))))
  ∧ field "match_count"
      (Sample.result_of
         (@scrape_soup Sample.site_env Sample.long_soup Sample.page_url "cat"
            (Sample.world Sample.site)))
    = Some (JInt (length
                    (first_occurrences
                       (List.filter (passes "cat")
                          (candidate_texts
                             (decompose_all NOISE_TAGS Sample.long_soup))))))
  ∧ length (firstn 20
              (first_occurrences
                 (List.filter (passes "cat")
                    (candidate_texts (decompose_all NOISE_TAGS Sample.long_soup)))))
    = Nat.min 20
        (length (first_occurrences
                   (List.filter (passes "cat")
                      (candidate_texts (decompose_all NOISE_TAGS Sample.long_soup))))).
Proof.
  apply (@scrape_matches_truncated Sample.site_env Sample.long_soup Sample.page_url "cat"
           (Sample.world Sample.site)
           (snd (@scrape_soup Sample.site_env Sample.long_soup Sample.page_url "cat"
                   (Sample.world Sample.site)))).
  vm_compute. reflexivity.
Defined.

(** ** Removing the noise subtrees *)

Lemma decompose_all_cons (names : list string) (n : node) (sp : soup) :
  decompose_all names (n :: sp) = decompose_node names n ++ decompose_all names sp.
Proof. reflexivity. Qed.

(** Trees that differ only below the named tags are the same tree once
    those subtrees are cut out. *)
Lemma decompose_same_outside (names : list string) (a b : soup) :
  same_outside names a b -> decompose_all names a = decompose_all names b.
Proof.
  induction 1 as [|s a b _ IH|s a b _ IH|nm ats cs cs' a b Hnm _ IHc _ IH
                  |nm ats cs a b Hnm _ IH|nm ats cs a b Hnm _ IH];
    rewrite ?decompose_all_cons; simpl.
  - done.
  - by rewrite IH.
  - by rewrite IH.
  - rewrite !bool_decide_eq_false_2 by done. simpl.
    unfold decompose_all in IHc. by rewrite IHc, IH.
  - by rewrite bool_decide_eq_true_2.
  - by rewrite bool_decide_eq_true_2.
Qed.

(** No element of the tree that is left has one of the names. *)
Lemma decompose_node_clean (names : list string) (n : node) :
  Forall (λ d, name_in names d = false)
         (flat_map (fun c => c :: descendants c) (decompose_node names n)).
Proof.
  induction n as [s|s|nm ats cs IH] using node_ind'; simpl.
  - by repeat constructor.
  - by repeat constructor.
  - destruct (bool_decide (nm ∈ names)) eqn:Hnm; simpl; [constructor|].
    constructor; [simpl; by rewrite Hnm|].
    rewrite app_nil_r.
    induction IH as [|c cs Hc _ IHcs]; simpl; [constructor|].
    rewrite flat_map_app. by apply Forall_app.
Qed.

Lemma find_all_decomposed (names : list string) (sp : soup) :
  find_all names (decompose_all names sp) = [].
Proof.
  unfold find_all, soup_descendants, decompose_all.
  induction sp as [|n sp IH]; simpl; [done|].
  rewrite flat_map_app, List.filter_app, IH, app_nil_r.
  pose proof (decompose_node_clean names n) as Hclean.
  induction Hclean as [|d ds Hd _ IHd]; simpl; [done|]. by rewrite Hd.
Qed.

(** C2. Two pages that differ only inside subtrees rooted at script,
    style, nav, footer, header, aside, noscript, iframe, svg or form
    tags have the same title, description and matches, and are scraped
    to the same result in every world; and once those subtrees are
    removed, before any text is read, no such tag is left in the tree. *)
Theorem noise_subtrees_ignored `{Env} (sp1 sp2 : soup) (page_url keyword : string) :
  same_outside NOISE_TAGS sp1 sp2 ->
  let sp1' := decompose_all NOISE_TAGS sp1 in
  let sp2' := decompose_all NOISE_TAGS sp2 in
  page_title sp1' page_url = page_title sp2' page_url
  ∧ page_description sp1' = page_description sp2'
  ∧ page_matches sp1' keyword = page_matches sp2' keyword
  ∧ (∀ w, scrape_soup sp1 page_url keyword w = scrape_soup sp2 page_url keyword w)
  ∧ find_all NOISE_TAGS sp1' = [].
Proof.
  intros Hsame sp1' sp2'.
  assert (sp1' = sp2') as Heq by by apply decompose_same_outside.
  split_and!; try by rewrite Heq.
  - intros w. unfold scrape_soup. fold sp1' sp2'. by rewrite Heq.
  - apply find_all_decomposed.
Qed.

Lemma sample_pages_differ_in_noise :
  same_outside NOISE_TAGS Sample.page_soup Sample.other_soup.
Proof.
  assert (∀ nm, bool_decide (nm ∉ NOISE_TAGS) = true -> nm ∉ NOISE_TAGS) as Hout
    by (intros nm; apply bool_decide_eq_true_1).
  assert (∀ nm, bool_decide (nm ∈ NOISE_TAGS) = true -> nm ∈ NOISE_TAGS) as Hin
    by (intros nm; apply bool_decide_eq_true_1).
  unfold Sample.page_soup, Sample.other_soup, Sample.page_tree, Sample.page_body.
  simpl app.
  apply same_tag; [by apply Hout | | constructor].
  apply same_tag; [by apply Hout | | ].
  { apply same_tag; [by apply Hout | repeat constructor |].
    apply same_tag; [by apply Hout | constructor | constructor]. }
  apply same_tag; [by apply Hout | | constructor].
  apply same_skip_left; [by apply Hin|].
  apply same_skip_right; [by apply Hin|].
  apply same_skip_right; [by apply Hin|].
  apply same_tag; [by apply Hout | repeat constructor |].
  apply same_tag; [by apply Hout | |].
  { repeat (apply same_tag; [by apply Hout | repeat constructor |]). constructor. }
  apply same_skip_left; [by apply Hin|].
  apply same_skip_right; [by apply Hin|].
  repeat (apply same_tag; [by apply Hout | repeat constructor |]). constructor.
Qed.

Lemma noise_subtrees_ignored_witness :
  page_title (decompose_all NOISE_TAGS Sample.page_soup) Sample.page_url
  = page_title (decompose_all NOISE_TAGS Sample.other_soup) Sample.page_url
  ∧ page_matches (decompose_all NOISE_TAGS Sample.page_soup) "cat"
    = page_matches (decompose_all NOISE_TAGS Sample.other_soup) "cat".
Proof.
  pose proof (@noise_subtrees_ignored Sample.site_env _ _ Sample.page_url "cat"
                sample_pages_differ_in_noise) as (Ht & _ & Hm & _).
  exact (conj Ht Hm).
Defined.

(** ** The image loop of a search *)

Lemma length_chars (s : string) : length (chars s) = String.length s.
Proof. induction s; simpl; congruence. Qed.

Lemma length_string_take (n : nat) (s : string) :
  (String.length (string_take n s) ≤ n)%nat.
Proof.
  revert s. induction n as [|n IH]; intros [|c s]; simpl; try lia.
  specialize (IH s). lia.
Qed.

(** A slice of [n] items is visited in at most [n] steps. *)
Lemma slice_iter_length (found capped : json) (n : nat) (items : list json) :
  py_slice found n = Ret capped -> py_iter capped = Ret items ->
  (length items ≤ n)%nat.
Proof.
  destruct found; simpl; try discriminate; intros [= <-]; simpl; intros [= <-].
  - rewrite length_chars. apply length_string_take.
  - rewrite length_firstn. lia.
Qed.

Lemma search_images_loop_length `{Env} (items acc images : list json) (w w' : World) :
  search_images_loop items acc w = (Ret images, w') ->
  (length images ≤ length acc + length items)%nat.
Proof.
  revert acc w. induction items as [|item items IH]; intros acc w; cbn [search_images_loop].
  - run. intros [= <- _]. simpl. lia.
  - run.
    destruct (py_get item "properties" (JObj [])) as [props|e]; [|discriminate].
    destruct (py_get props "url" (JStr "")) as [src|e]; [|discriminate].
    destruct (negb (truthy src)).
    { intros Hrun%IH. simpl. lia. }
    destruct (upload_value src w) as [[[u|]|e] w1]; [| |discriminate].
    + destruct (Str.is_empty u).
      { intros Hrun%IH. simpl. lia. }
      destruct (py_get item "title" (JStr "")) as [alt|e]; [|discriminate].
      intros Hrun%IH. rewrite length_app in Hrun. simpl in *. lia.
    + intros Hrun%IH. simpl. lia.
Qed.

Lemma image_results_length `{Env} (img_data : json) (images : list json) (w w' : World) :
  image_results img_data w = (Ret images, w') -> (length images ≤ MAX_IMAGES)%nat.
Proof.
  unfold image_results. run.
  destruct (py_get img_data "results" (JArr [])) as [found|e]; [|discriminate].
  destruct (py_slice found MAX_IMAGES) as [capped|e] eqn:Hslice; [|discriminate].
  destruct (py_iter capped) as [items|e] eqn:Hiter; [|discriminate].
  intros Hrun%search_images_loop_length.
  pose proof (slice_iter_length _ _ _ _ Hslice Hiter). simpl in Hrun. lia.
Qed.

(** What [search_brave] returns when it returns. *)
Lemma search_brave_returns `{Env} (keyword : string) (w w' : World) (result : json) :
  search_brave keyword w = (Ret result, w') ->
  ∃ results images,
    result = JObj [("mode", JStr "search");
                   ("keyword", JStr keyword);
                   ("results", JArr results);
                   ("result_count", JInt (length results));
                   ("images", JArr images);
                   ("image_count", JInt (length images))]
    ∧ (length images ≤ MAX_IMAGES)%nat.
Proof.
  unfold search_brave. run.
  destruct (requests_get (web_search_request keyword) w) as [[web_resp|e] w1]; [|discriminate].
  destruct (raise_for_status web_resp w1) as [[[]|e] w2]; [|discriminate].
  destruct (response_json web_resp w2) as [[web_data|e] w3]; [|discriminate].
  destruct (web_results web_data) as [results|e]; [|discriminate].
  destruct (Str.is_empty IMAGE_BUCKET).
  { intros [= <- _]. exists results, []. split; [done | simpl; lia]. }
  destruct (requests_get (image_search_request keyword) w3) as [[img_resp|e] w4]; [|discriminate].
  destruct (ok img_resp).
  - destruct (response_json img_resp w4) as [[img_data|e] w5]; [|discriminate].
    destruct (image_results img_data w5) as [[images|e] w6] eqn:Himg; [|discriminate].
    intros [= <- _]. exists results, images. split; [done|].
    by eapply image_results_length.
  - intros [= <- _]. exists results, []. split; [done | simpl; lia].
Qed.

(** ** The cap on the images *)

(** C3, as amended. In both modes the [images] of a returned result
    are at most [MAX_IMAGES] and [image_count] is their number. When
    the loop with no cap returns the eligible images of a page, the
    scrape returns too and stores the first [MAX_IMAGES] of them, so
    exactly [MAX_IMAGES] when more are eligible: an upload that fails
    does not count against the cap. A search tries the first
    [MAX_IMAGES] results of the image search and no other. *)
Theorem images_capped `{Env} :
  (∀ sp page_url keyword w result w',
     scrape_soup sp page_url keyword w = (Ret result, w') ->
     ∃ images,
       field "images" result = Some (JArr images)
       ∧ field "image_count" result = Some (JInt (length images))
       ∧ (length images ≤ MAX_IMAGES)%nat)
  ∧ (∀ sp page_url keyword w eligible,
       eligible_images (decompose_all NOISE_TAGS sp) page_url w = Ret eligible ->
       ∃ result w' images,
         scrape_soup sp page_url keyword w = (Ret result, w')
         ∧ field "images" result = Some (JArr images)
         ∧ field "image_count" result = Some (JInt (length images))
         ∧ images = firstn MAX_IMAGES eligible
         ∧ length images = Nat.min MAX_IMAGES (length eligible))
  ∧ (∀ keyword w result w',
       search_brave keyword w = (Ret result, w') ->
       ∃ images,
         field "images" result = Some (JArr images)
         ∧ field "image_count" result = Some (JInt (length images))
         ∧ (length images ≤ MAX_IMAGES)%nat)
  ∧ (∀ img_data items,
       py_get img_data "results" (JArr []) = Ret (JArr items) ->
       image_results img_data = search_images_loop (firstn MAX_IMAGES items) []).
Proof.
  split_and!.
  - intros sp page_url keyword w result w' (images & Hc & ->)%scrape_soup_inv.
    exists images. split_and!; [reflexivity | reflexivity |].
    by eapply collect_images_length.
  - intros sp page_url keyword w eligible Hel.
    destruct (collect_images_capped _ _ _ _ Hel) as (w' & Hc).
    eexists _, w', _. split; [by apply scrape_soup_result|].
    split_and!; [reflexivity | reflexivity | reflexivity | apply length_firstn].
  - intros keyword w result w' Hrun.
    destruct (search_brave_returns _ _ _ _ Hrun) as (results & images & -> & Hlen).
    by exists images.
  - intros img_data items Hget. unfold image_results. run. by rewrite Hget.
Qed.

(** In a search an upload that fails counts against the cap: of twelve
    image results, eleven of which can be stored, nine are returned. *)
Lemma search_cap_counts_failures :
  length (@search_eligible (Sample.search_env 12 "bucket") (Sample.images_doc 12)
            (Sample.world (Sample.search_service 200 12))) = 11%nat
  ∧ field "image_count"
      (Sample.result_of
         (@search_brave (Sample.search_env 12 "bucket") "cat"
            (Sample.world (Sample.search_service 200 12))))
    = Some (JNum 9).
Proof. vm_compute. done. Qed.

Lemma images_capped_witness :
  (∃ result w' images,
     @scrape_soup Sample.site_env Sample.page_soup Sample.page_url "cat"
       (Sample.world Sample.site) = (Ret result, w')
     ∧ field "images" result = Some (JArr images)
     ∧ field "image_count" result = Some (JInt (length images))
     ∧ images
       = firstn MAX_IMAGES
           (Sample.list_of
              (@eligible_images Sample.site_env
                 (decompose_all NOISE_TAGS Sample.page_soup) Sample.page_url
                 (Sample.world Sample.site)))
     ∧ length images
       = Nat.min MAX_IMAGES
           (length
              (Sample.list_of
                 (@eligible_images Sample.site_env
                    (decompose_all NOISE_TAGS Sample.page_soup) Sample.page_url
                    (Sample.world Sample.site)))))
  ∧ ∃ images,
      field "images"
        (Sample.result_of
           (@search_brave (Sample.search_env 12 "bucket") "cat"
              (Sample.world (Sample.search_service 200 12))))
      = Some (JArr images)
      ∧ field "image_count"
          (Sample.result_of
             (@search_brave (Sample.search_env 12 "bucket") "cat"
                (Sample.world (Sample.search_service 200 12))))
        = Some (JInt (length images))
      ∧ (length images ≤ MAX_IMAGES)%nat.
Proof.
  split.
  - apply (proj1 (proj2 (@images_capped Sample.site_env)) Sample.page_soup
             Sample.page_url "cat" (Sample.world Sample.site)).
    vm_compute. reflexivity.
  - apply (proj1 (proj2 (proj2 (@images_capped (Sample.search_env 12 "bucket")))) "cat"
             (Sample.world (Sample.search_service 200 12)) _
             (snd (@search_brave (Sample.search_env 12 "bucket") "cat"
                     (Sample.world (Sample.search_service 200 12))))).
    vm_compute. reflexivity.
Defined.

(** ** The storage address of an image *)





(** ** The encoding of a page *)

(** C10. A page that was fetched is parsed from its bytes decoded in
    the encoding the detector reports, and in UTF-8 when the detector
    reports none (nothing, or an empty name); the scrape goes on with
    the tree the parser returns, and raises what the parser raises. *)
Theorem page_decoded_with_fallback `{Env} (page_url keyword : string)
    (w w1 : World) (resp : Response) :
  requests_get (page_request page_url) w = (Ret resp, w1) ->
  is_error_status resp = false ->
  let enc := match apparent_encoding resp with
             | Some e => if Str.is_empty e then "utf-8" else e
             | None => "utf-8"
             end in
  scrape_url page_url keyword w
  = match BeautifulSoup (decode enc (content resp)) with
    | Ret sp => scrape_soup sp page_url keyword w1
    | Raise e => (Raise e, w1)
    end.
Proof.
  intros Hget Hok enc. unfold scrape_url, raise_for_status. run.
  rewrite Hget, Hok. unfold text, set_encoding, Str.or_else. simpl.
  subst enc. by destruct (apparent_encoding resp) as [[|c e]|].
Qed.

Lemma page_decoded_with_fallback_witness :
  @scrape_url Sample.site_env Sample.page_url "cat" (Sample.world Sample.site)
  = match @BeautifulSoup Sample.site_env
            (@decode Sample.site_env "utf-8" (encode Sample.page_html)) with
    | Ret sp =>
        @scrape_soup Sample.site_env sp Sample.page_url "cat"
          (tick (Get (page_request Sample.page_url)) (Sample.world Sample.site))
    | Raise e =>
        (Raise e, tick (Get (page_request Sample.page_url)) (Sample.world Sample.site))
    end.
Proof.
  apply (@page_decoded_with_fallback Sample.site_env Sample.page_url "cat"
           (Sample.world Sample.site) _
           {| status_code := 200; resp_headers := [("Content-Type", "text/html")];
              content := encode Sample.page_html; apparent_encoding := None;
              encoding := None |}).
  - vm_compute. reflexivity.
  - reflexivity.
Defined.

(** ** Which images are harvested *)

Lemma upload_events_harvest `{Env} (base_url : string) (imgs : list node)
    (full_url : string) (evs : list io_event) :
  harvested_from base_url imgs full_url ->
  upload_events full_url evs ->
  Forall (harvest_event base_url imgs) evs.
Proof.
  intros Hfrom [-> | (bucket & ext & payload & ctype & ->)].
  - constructor; [|constructor]. by exists full_url.
  - constructor; [|constructor; [|constructor]].
    + exists full_url. split; [done|]. by exists ext.
    + by exists full_url.
Qed.

(** A tag the loop does not skip is harvested from. *)
Lemma loop_source_harvestable (img : node) :
  Str.is_empty (Str.strip (attr_get img "src" ""))
  || Str.startswith (Str.strip (attr_get img "src" "")) "data:" = false ->
  harvestable img (Str.strip (attr_get img "src" "")).
Proof.
  intros [Hne Hdata]%orb_false_iff. unfold attr_get in *.
  destruct (attr img "src") as [v|] eqn:Hattr; simpl in *; [|discriminate].
  exists v. split_and!; [done | done | by apply is_empty_false | done].
Qed.

Lemma collect_loop_harvest `{Env} (base_url : string) (all imgs : list node)
    (acc images : list json) (w w' : World) :
  (∀ img, img ∈ imgs -> img ∈ all) ->
  Forall (harvest_entry base_url all) acc ->
  collect_loop base_url imgs acc w = (Ret images, w') ->
  ∃ evs,
    trace w' = evs ++ trace w
    ∧ Forall (harvest_event base_url all) evs
    ∧ Forall (harvest_entry base_url all) images.
Proof.
  revert acc w. induction imgs as [|img imgs IH]; intros acc w Hsub Hacc.
  - intros [= <- <-]. by exists [].
  - assert (∀ i, i ∈ imgs -> i ∈ all) as Hsub' by (intros i Hi; apply Hsub; by right).
    rewrite collect_loop_cons.
    destruct (MAX_IMAGES <=? length acc)%nat; [intros [= <- <-]; by exists []|].
    destruct (_ || _) eqn:Hskip; [by apply IH|].
    destruct (urljoin base_url _) as [full_url|e] eqn:Hjoin; [|discriminate].
    destruct (negb _) eqn:Hhttp; [by apply IH|].
    apply negb_false_iff in Hhttp.
    assert (harvested_from base_url all full_url) as Hfrom.
    { exists img, (Str.strip (attr_get img "src" "")).
      split_and!; [apply Hsub; by left | by apply loop_source_harvestable | done | done]. }
    destruct (upload_cases full_url w) as (o & w1 & evs1 & -> & Ht1 & Hev1 & _).
    assert (∀ acc', Forall (harvest_entry base_url all) acc' ->
              collect_loop base_url imgs acc' w1 = (Ret images, w') ->
              ∃ evs, trace w' = evs ++ trace w
                     ∧ Forall (harvest_event base_url all) evs
                     ∧ Forall (harvest_entry base_url all) images) as Hnext.
    { intros acc' Hacc' Hrun.
      destruct (IH acc' w1 Hsub' Hacc' Hrun) as (evs & Ht & Hev & Himg).
      exists (evs ++ evs1). split_and!; [ | | done].
      - by rewrite Ht, Ht1, app_assoc.
      - apply Forall_app. split; [done|]. by eapply upload_events_harvest. }
    destruct o as [u|]; [|by apply Hnext].
    destruct (Str.is_empty u); [by apply Hnext|].
    apply Hnext. apply Forall_app. split; [done|]. constructor; [|constructor].
    by exists full_url, u, (JStr (attr_get img "alt" "")).
Qed.

(** The source of a tag is what the loop goes on with. *)
Lemma harvest_source_loop (img : node) :
  harvest_source img
  = if Str.is_empty (Str.strip (attr_get img "src" ""))
       || Str.startswith (Str.strip (attr_get img "src" "")) "data:"
    then [] else [Str.strip (attr_get img "src" "")].
Proof. unfold harvest_source, attr_get. destruct (attr img "src"); reflexivity. Qed.

(** A tag without a [src] attribute has no source, so the sources of the
    tags that [find_all] selects are those of all image tags. *)
Lemma harvest_sources_selected (imgs : list node) :
  harvest_sources (List.filter has_src imgs) = harvest_sources imgs.
Proof.
  unfold harvest_sources. induction imgs as [|img imgs IH]; [done|].
  cbn [List.filter flat_map]. rewrite <- IH. unfold has_src.
  destruct (attr img "src") as [v|] eqn:Hattr; [reflexivity|].
  unfold harvest_source. by rewrite Hattr.
Qed.

Lemma upload_events_get (img_url : string) (evs : list io_event) :
  upload_events img_url evs -> List.filter is_get evs = [Get (image_request img_url)].
Proof. by intros [-> | (bucket & ext & payload & ctype & ->)]. Qed.

(** The requests of the loop: one for each source it visited that
    resolves to an http or https address, in the order of the tags; it
    visits every source unless it stops at the cap. *)
Lemma collect_loop_visits `{Env} (base_url : string) (imgs : list node)
    (acc images : list json) (w w' : World) :
  (length acc ≤ MAX_IMAGES)%nat ->
  collect_loop base_url imgs acc w = (Ret images, w') ->
  ∃ evs visited addrs,
    trace w' = evs ++ trace w
    ∧ visited `prefix_of` harvest_sources imgs
    ∧ (visited = harvest_sources imgs ∨ length images = MAX_IMAGES)
    ∧ resolve_all base_url visited = Ret addrs
    ∧ List.filter is_get evs
      = rev (map (λ u, Get (image_request u)) (List.filter is_http addrs)).
Proof.
  revert acc w. induction imgs as [|img imgs IH]; intros acc w Hlen.
  - intros [= <- <-]. exists [], [], []. split_and!; [done | done | by left | done | done].
  - rewrite collect_loop_cons. unfold harvest_sources. cbn [flat_map].
    fold (harvest_sources imgs). rewrite harvest_source_loop.
    destruct (MAX_IMAGES <=? length acc)%nat eqn:Hcap.
    { apply Nat.leb_le in Hcap. intros [= <- <-]. exists [], [], [].
      split_and!; [done | apply prefix_nil | right; lia | done | done]. }
    apply Nat.leb_gt in Hcap.
    destruct (_ || _) eqn:Hskip; [by apply IH|].
    destruct (urljoin base_url _) as [full_url|e] eqn:Hjoin; [|discriminate].
    destruct (negb _) eqn:Hhttp.
    { apply negb_true_iff in Hhttp.
      intros (evs & visited & addrs & Ht & Hpre & Hall & Hres & Hget)%IH; [|done].
      exists evs, (Str.strip (attr_get img "src" "") :: visited), (full_url :: addrs).
      split_and!; [done | by apply prefix_cons | | | ].
      - destruct Hall as [-> | ?]; [by left | by right].
      - cbn [resolve_all]. run. by rewrite Hjoin, Hres.
      - cbn [List.filter]. by rewrite Hhttp. }
    apply negb_false_iff in Hhttp.
    destruct (upload_cases full_url w) as (o & w1 & evs1 & -> & Ht1 & Hev1 & _).
    assert (∀ acc', (length acc' ≤ MAX_IMAGES)%nat ->
              collect_loop base_url imgs acc' w1 = (Ret images, w') ->
              ∃ evs visited addrs,
                trace w' = evs ++ trace w
                ∧ visited `prefix_of` ([Str.strip (attr_get img "src" "")]
                                       ++ harvest_sources imgs)
                ∧ (visited = [Str.strip (attr_get img "src" "")] ++ harvest_sources imgs
                   ∨ length images = MAX_IMAGES)
                ∧ resolve_all base_url visited = Ret addrs
                ∧ List.filter is_get evs
                  = rev (map (λ u, Get (image_request u)) (List.filter is_http addrs)))
      as Hnext.
    { intros acc' Hlen' (evs & visited & addrs & Ht & Hpre & Hall & Hres & Hget)%IH;
        [|done].
      exists (evs ++ evs1), (Str.strip (attr_get img "src" "") :: visited),
        (full_url :: addrs).
      split_and!.
      - by rewrite Ht, Ht1, app_assoc.
      - by apply prefix_cons.
      - destruct Hall as [-> | ?]; [by left | by right].
      - cbn [resolve_all]. run. by rewrite Hjoin, Hres.
      - cbn [List.filter]. rewrite Hhttp. cbn [map rev].
        by rewrite List.filter_app, Hget, (upload_events_get _ _ Hev1). }
    destruct o as [u|]; [|by apply Hnext].
    destruct (Str.is_empty u); [by apply Hnext|].
    apply Hnext. rewrite length_app. simpl. lia.
Qed.

(** C8. Whenever a harvest returns, every request and every stored
    object of it, and every entry of its result, is for an address that
    comes from an [img] element of the page with a [src] attribute whose
    stripped value is not empty and does not start with [data:], that is
    this value resolved against the base address by [urljoin], and that
    starts with [http://] or [https://]. With a bucket, the harvest
    resolves the sources of the image tags in document order, all of
    them unless it stops with [MAX_IMAGES] images, and requests exactly
    the resolved addresses that start with [http://] or [https://], one
    request each, in that order. *)
Theorem images_harvested `{Env} (sp : soup) (base_url : string) (w w' : World)
    (images : list json) :
  _collect_images sp base_url w = (Ret images, w') ->
  ∃ evs,
    trace w' = evs ++ trace w
    ∧ Forall (harvest_event base_url (find_all ["img"] sp)) evs
    ∧ Forall (harvest_entry base_url (find_all ["img"] sp)) images
    ∧ (Str.is_empty IMAGE_BUCKET = false ->
       ∃ visited addrs,
         visited `prefix_of` harvest_sources (find_all ["img"] sp)
         ∧ (visited = harvest_sources (find_all ["img"] sp)
            ∨ length images = MAX_IMAGES)
         ∧ resolve_all base_url visited = Ret addrs
         ∧ List.filter is_get evs
           = rev (map (λ u, Get (image_request u)) (List.filter is_http addrs))).
Proof.
  unfold _collect_images.
  destruct (Str.is_empty IMAGE_BUCKET).
  { intros [= <- <-]. exists []. split_and!; [done | done | done | done]. }
  intros Hrun.
  assert (∀ img, img ∈ List.filter has_src (find_all ["img"] sp) ->
            img ∈ find_all ["img"] sp) as Hsub.
  { intros img [? _]%list_elem_of_In%filter_In. by apply list_elem_of_In. }
  destruct (collect_loop_harvest _ _ _ _ _ _ _ Hsub ltac:(constructor) Hrun)
    as (evs & Ht & Hev & Himg).
  exists evs. split_and!; [done | done | done |]. intros _.
  assert (length (@nil json) ≤ MAX_IMAGES)%nat as Hlen by (simpl; lia).
  destruct (collect_loop_visits _ _ _ _ _ _ Hlen Hrun)
    as (evs' & visited & addrs & Ht' & Hpre & Hall & Hres & Hget).
  assert (evs' = evs) as -> by (apply (app_inv_tail (trace w)); congruence).
  rewrite harvest_sources_selected in Hpre, Hall. by exists visited, addrs.
Qed.

Lemma images_harvested_witness :
  ∃ evs,
    trace (snd (@_collect_images Sample.site_env
                  (decompose_all NOISE_TAGS Sample.page_soup) Sample.page_url
                  (Sample.world Sample.site)))
    = evs ++ trace (Sample.world Sample.site)
    ∧ List.filter is_get evs
      = rev (map (λ u, Get (image_request u))
               (List.filter is_http
                  (Sample.list_of
                     (@resolve_all Sample.site_env Sample.page_url
                        (harvest_sources
                           (find_all ["img"]
                              (decompose_all NOISE_TAGS Sample.page_soup))))))).
Proof.
  destruct (@images_harvested Sample.site_env
              (decompose_all NOISE_TAGS Sample.page_soup) Sample.page_url
              (Sample.world Sample.site)
              (snd (@_collect_images Sample.site_env
                      (decompose_all NOISE_TAGS Sample.page_soup) Sample.page_url
                      (Sample.world Sample.site)))
              (Sample.list_of
                 (fst (@_collect_images Sample.site_env
                         (decompose_all NOISE_TAGS Sample.page_soup) Sample.page_url
                         (Sample.world Sample.site)))))
    as (evs & Ht & _ & _ & Hvisits); [vm_compute; reflexivity|].
  exists evs. split; [exact Ht|].
  destruct (Hvisits ltac:(vm_compute; reflexivity))
    as (visited & addrs & Hpre & [-> | Hcap] & Hres & Hget).
  - rewrite Hget, Hres. reflexivity.
  - vm_compute in Hcap. discriminate.
Defined.

(** ** The handler *)

Lemma text_field_get (key : string) (payload : list (string * json)) (s : string) :
  text_field key payload s ->
  ∃ v, py_get (JObj payload) key (JStr "") = Ret v ∧ py_strip v = Ret s.
Proof.
  unfold text_field, py_get.
  destruct (lookup_field key payload) as [[| | |v| |]|]; simpl; try done.
  - intros ->. by eexists.
  - intros ->. by eexists.
Qed.

(** The work of a request never escapes its [except] clauses. *)
Lemma run_request_cases `{Env} (target_url keyword : string) (w : World) :
  (∃ result w',
     (if negb (Str.is_empty target_url)
      then scrape_url target_url keyword else search_brave keyword) w = (Ret result, w')
     ∧ run_request target_url keyword w = (Ret (inl result), w'))
  ∨ (∃ e w',
       (if negb (Str.is_empty target_url)
        then scrape_url target_url keyword else search_brave keyword) w = (Raise e, w')
       ∧ run_request target_url keyword w = (Ret (inr (on_exception e)), w')).
Proof.
  unfold run_request. run.
  destruct ((if negb (Str.is_empty target_url)
             then scrape_url target_url keyword else search_brave keyword) w)
    as [[result|e] w'].
  - left. by exists result, w'.
  - right. by exists e, w'.
Qed.

Lemma on_exception_status `{Env} (e : exn) :
  ∃ msg, on_exception e = _error (fault_status (fault_of_exception e)) msg.
Proof. destruct e; simpl; by eexists. Qed.

(** The handler on a request whose body is a dictionary with a keyword
    and an address that are texts. *)
Lemma handler_on_request `{Env} (event context : json) (w : World) (raw : string)
    (payload : list (string * json)) (keyword target_url : string) :
  posts event raw -> json_loads raw = Some (JObj payload) ->
  text_field "keyword" payload keyword ->
  text_field "url" payload target_url ->
  lambda_handler event context w
  = if Str.is_empty keyword
    then (Ret (_error 400 "keyword は必須パラメータです"), w)
    else match run_request target_url keyword w with
         | (Ret (inr response), w') => (Ret response, w')
         | (Ret (inl result), w') =>
             (Ret {| statusCode := 200; response_headers := CORS_HEADERS;
                     body := json_dumps result |}, w')
         | (Raise e, w') => (Raise e, w')
         end.
Proof.
  intros (m & b & Hm & Hopt & Hb & Hraw) Hloads
    (kw & Hkw & Hks)%text_field_get (u & Hu & Hus)%text_field_get.
  unfold lambda_handler. run.
  rewrite Hm, Hopt, Hb, Hraw. simpl. rewrite Hloads, Hkw, Hks, Hu, Hus.
  destruct (Str.is_empty keyword); [done|].
  by destruct (run_request target_url keyword w) as [[[result|response]|e] w'].
Qed.

(** The handler on a request whose body is no JSON. *)
Lemma handler_on_malformed_body `{Env} (event context : json) (w : World) (raw : string) :
  posts event raw -> json_loads raw = None ->
  lambda_handler event context w
  = (Ret (_error 400 "リクエストボディが不正な JSON です"), w).
Proof.
  intros (m & b & Hm & Hopt & Hb & Hraw) Hloads.
  unfold lambda_handler. run. rewrite Hm, Hopt, Hb, Hraw. simpl. by rewrite Hloads.
Qed.

(** C5. A request with a fault is answered with the status of its
    fault class (400 for a body that is no JSON or a missing keyword,
    504 for an upstream timeout, 502 for an upstream HTTP error, too
    many redirects or another request failure, 500 for any other
    exception) and with a body that is the JSON object of one [error]
    message. *)
Theorem fault_answered_by_class `{Env} (event context : json) (w : World) (f : fault) :
  request_fault event w f ->
  ∃ response w' msg,
    lambda_handler event context w = (Ret response, w')
    ∧ statusCode response = fault_status f
    ∧ body response = json_dumps (JObj [("error", JStr msg)]).
Proof.
  intros [raw Hposts Hloads
         |raw payload target_url Hposts Hloads Hkw Hurl
         |raw payload keyword target_url e w' Hposts Hloads Hkw Hne Hurl Hrun].
  - rewrite (handler_on_malformed_body _ _ _ _ Hposts Hloads).
    by eexists _, w, _.
  - rewrite (handler_on_request _ _ _ _ _ _ _ Hposts Hloads Hkw Hurl). simpl.
    by eexists _, w, _.
  - rewrite (handler_on_request _ _ _ _ _ _ _ Hposts Hloads Hkw Hurl).
    apply is_empty_false in Hne. rewrite Hne.
    destruct (run_request_cases target_url keyword w)
      as [(result & w1 & Hop & _) | (e1 & w1 & Hop & ->)]; [congruence|].
    assert (e1 = e ∧ w1 = w') as [-> ->] by (split; congruence).
    destruct (on_exception_status e) as [msg ->].
    by eexists _, w', msg.
Qed.

(** C6, at the input on which the handler fails. A request whose body
    is a dictionary with a keyword that is no string raises an
    [AttributeError] that no handler catches. *)
Theorem keyword_of_wrong_type_raises `{Env} (event context : json) (w : World)
    (raw : string) (payload : list (string * json)) (v : json) :
  posts event raw -> json_loads raw = Some (JObj payload) ->
  lookup_field "keyword" payload = Some v ->
  (∀ s, v ≠ JStr s) ->
  lambda_handler event context w = (attribute_error v "strip", w).
Proof.
  intros (m & b & Hm & Hopt & Hb & Hraw) Hloads Hkw Hv.
  unfold lambda_handler. run. rewrite Hm, Hopt, Hb, Hraw. simpl.
  rewrite Hloads. simpl. rewrite Hkw. simpl.
  destruct v; simpl; try done. by destruct (Hv s).
Qed.

Ltac sample_posts payload :=
  exists (JStr "POST"), (JStr (Sample.dumps payload));
  split_and!; vm_compute; reflexivity.

Lemma fault_answered_by_class_witness :
  ∃ response w' msg,
    @lambda_handler (Sample.search_env 2 "bucket") (Sample.post Sample.scrape_request)
      JNull (Sample.world Sample.timing_out) = (Ret response, w')
    ∧ statusCode response = 504%Z
    ∧ body response = Sample.dumps (JObj [("error", JStr msg)]).
Proof.
  apply (@fault_answered_by_class (Sample.search_env 2 "bucket")
           (Sample.post Sample.scrape_request) JNull (Sample.world Sample.timing_out)
           UpstreamTimeout).
  refine (@fault_upstream (Sample.search_env 2 "bucket") _ _
            (Sample.dumps Sample.scrape_request)
            [("keyword", JStr "cat"); ("url", JStr Sample.page_url)]
            "cat" Sample.page_url (Timeout "Read timed out. (read timeout=15)")
            (tick (Get (page_request Sample.page_url)) (Sample.world Sample.timing_out))
            _ _ _ _ _ _).
  - sample_posts Sample.scrape_request.
  - vm_compute. reflexivity.
  - vm_compute. reflexivity.
  - discriminate.
  - vm_compute. reflexivity.
  - vm_compute. reflexivity.
Defined.

Lemma keyword_of_wrong_type_raises_witness :
  @lambda_handler (Sample.search_env 2 "bucket") (Sample.post Sample.number_request)
    JNull (Sample.world Sample.site)
  = (Raise (PyError "AttributeError" "'int' object has no attribute 'strip'"),
     Sample.world Sample.site).
Proof.
  apply (@keyword_of_wrong_type_raises (Sample.search_env 2 "bucket")
           (Sample.post Sample.number_request) JNull (Sample.world Sample.site)
           (Sample.dumps Sample.number_request) [("keyword", JNum 123)] (JNum 123)).
  - sample_posts Sample.number_request.
  - vm_compute. reflexivity.
  - reflexivity.
  - discriminate.
Defined.

(** ** Images are optional *)

(** A search whose image search is answered with an error status. *)
Lemma search_brave_without_images `{Env} (keyword : string) (w : World)
    (web_resp img_resp : Response) (web_data : json) (results : list json) :
  IMAGE_BUCKET ≠ "" ->
  net w (clock w) (web_search_request keyword) = Ret web_resp ->
  is_error_status web_resp = false ->
  json_loads (decode "utf-8" (content web_resp)) = Some web_data ->
  web_results web_data = Ret results ->
  net w (S (clock w)) (image_search_request keyword) = Ret img_resp ->
  is_error_status img_resp = true ->
  search_brave keyword w
  = (Ret (JObj [("mode", JStr "search");
                ("keyword", JStr keyword);
                ("results", JArr results);
                ("result_count", JInt (length results));
                ("images", JArr []);
                ("image_count", JInt 0)]),
     tick (Get (image_search_request keyword))
       (tick (Get (web_search_request keyword)) w)).
Proof.
  intros Hbucket%is_empty_false Hweb Hok Hjson Hhits Himg Herr.
  unfold search_brave, raise_for_status, response_json, requests_get, ok. run.
  rewrite Hweb, Hok, Hjson, Hhits, Hbucket. simpl. by rewrite Himg, Herr.
Qed.

(** C9, as amended. With no bucket configured the harvest of a page
    does nothing and returns no image, and a search makes the one
    request of the web search and returns no image. With a bucket, a
    search whose image search is answered with an error status (400 to
    599) is answered with status 200, the web results and no image. *)
Theorem images_are_optional `{Env} :
  (IMAGE_BUCKET = "" ->
     (∀ sp base_url w, _collect_images sp base_url w = (Ret [], w))
     ∧ (∀ keyword w result w',
          search_brave keyword w = (Ret result, w') ->
          field "images" result = Some (JArr [])
          ∧ w' = tick (Get (web_search_request keyword)) w))
  ∧ (∀ event context w raw payload keyword web_resp img_resp web_data results,
       posts event raw -> json_loads raw = Some (JObj payload) ->
       text_field "keyword" payload keyword -> keyword ≠ "" ->
       text_field "url" payload "" ->
       IMAGE_BUCKET ≠ "" ->
       net w (clock w) (web_search_request keyword) = Ret web_resp ->
       is_error_status web_resp = false ->
       json_loads (decode "utf-8" (content web_resp)) = Some web_data ->
       web_results web_data = Ret results ->
       net w (S (clock w)) (image_search_request keyword) = Ret img_resp ->
       is_error_status img_resp = true ->
       ∃ w',
         lambda_handler event context w
         = (Ret {| statusCode := 200;
                   response_headers := CORS_HEADERS;
                   body := json_dumps
                             (JObj [("mode", JStr "search");
                                    ("keyword", JStr keyword);
                                    ("results", JArr results);
                                    ("result_count", JInt (length results));
                                    ("images", JArr []);
                                    ("image_count", JInt 0)]) |}, w')).
Proof.
  split.
  - intros Hbucket%is_empty_true. split.
    + intros sp base_url w. unfold _collect_images. by rewrite Hbucket.
    + intros keyword w result w'.
      unfold search_brave, raise_for_status, response_json, requests_get. run.
      rewrite Hbucket.
      destruct (net w (clock w) (web_search_request keyword)) as [web_resp|e]; [|discriminate].
      destruct (is_error_status web_resp); [discriminate|].
      destruct (json_loads _) as [web_data|]; [|discriminate].
      destruct (web_results web_data) as [results|e]; [|discriminate].
      by intros [= <- <-].
  - intros event context w raw payload keyword web_resp img_resp web_data results
      Hposts Hloads Hkw Hne Hurl Hbucket Hweb Hok Hjson Hhits Himg Herr.
    rewrite (handler_on_request _ _ _ _ _ _ _ Hposts Hloads Hkw Hurl).
    apply is_empty_false in Hne. rewrite Hne.
    unfold run_request. run. simpl.
    rewrite (search_brave_without_images _ _ _ _ _ _ Hbucket Hweb Hok Hjson Hhits Himg Herr).
    by eexists.
Qed.

(** A reply to the image search with status 300 is no error for the
    source: its results are stored and returned. *)
Lemma image_search_reply_300_is_read :
  (∃ r, net (Sample.world (Sample.search_service 300 2)) 1
          (@image_search_request (Sample.search_env 2 "bucket") "cat") = Ret r
        ∧ status_code r = 300%Z)
  ∧ field "image_count"
      (Sample.result_of
         (@search_brave (Sample.search_env 2 "bucket") "cat"
            (Sample.world (Sample.search_service 300 2))))
    = Some (JNum 1).
Proof. split; [eexists; split; vm_compute; reflexivity | vm_compute; reflexivity]. Qed.

Lemma images_are_optional_witness :
  ∃ w',
    @lambda_handler (Sample.search_env 2 "bucket") (Sample.post Sample.search_request)
      JNull (Sample.world (Sample.search_service 503 2))
    = (Ret {| statusCode := 200;
              response_headers := CORS_HEADERS;
              body := Sample.dumps
                        (JObj [("mode", JStr "search");
                               ("keyword", JStr "cat");
                               ("results",
                                JArr [JObj [("title", JStr "Cats");
                                            ("url", JStr "https://site.test/dir/page.html");
                                            ("snippet", JStr "All about cats");
                                            ("display_url", JStr "site.test")]]);
                               ("result_count", JInt 1);
                               ("images", JArr []);
                               ("image_count", JInt 0)]) |}, w').
Proof.
  refine (proj2 (@images_are_optional (Sample.search_env 2 "bucket"))
            (Sample.post Sample.search_request) JNull
            (Sample.world (Sample.search_service 503 2))
            (Sample.dumps Sample.search_request) [("keyword", JStr " cat ")] "cat"
            {| status_code := 200; resp_headers := [("Content-Type", "application/json")];
               content := encode (Sample.dumps Sample.web_doc);
               apparent_encoding := None; encoding := None |}
            {| status_code := 503; resp_headers := [("Content-Type", "application/json")];
               content := encode (Sample.dumps (Sample.images_doc 2));
               apparent_encoding := None; encoding := None |}
            Sample.web_doc _ _ _ _ _ _ _ _ _ _ _ _ _).
  - sample_posts Sample.search_request.
  - vm_compute. reflexivity.
  - reflexivity.
  - discriminate.
  - reflexivity.
  - discriminate.
  - vm_compute. reflexivity.
  - reflexivity.
  - vm_compute. reflexivity.
  - vm_compute. reflexivity.
  - vm_compute. reflexivity.
  - reflexivity.
Defined.

(** X1. A request whose body is absent, no JSON, or a dictionary whose
    keyword and address are absent or texts is always answered. *)
Theorem well_formed_request_answered `{Env} (event context : json) (w : World)
    (raw : string) :
  posts event raw ->
  (json_loads raw = None
   ∨ ∃ payload keyword target_url,
       json_loads raw = Some (JObj payload)
       ∧ text_field "keyword" payload keyword
       ∧ text_field "url" payload target_url) ->
  ∃ response w', lambda_handler event context w = (Ret response, w').
Proof.
  intros Hposts [Hloads | (payload & keyword & target_url & Hloads & Hkw & Hurl)].
  - rewrite (handler_on_malformed_body _ _ _ _ Hposts Hloads). by eexists _, _.
  - rewrite (handler_on_request _ _ _ _ _ _ _ Hposts Hloads Hkw Hurl).
    destruct (Str.is_empty keyword); [by eexists _, _|].
    destruct (run_request_cases target_url keyword w)
      as [(result & w' & _ & ->) | (e & w' & _ & ->)]; by eexists _, _.
Qed.

Lemma well_formed_request_answered_witness :
  ∃ response w',
    @lambda_handler (Sample.search_env 2 "bucket") (Sample.post Sample.scrape_request)
      JNull (Sample.world Sample.site) = (Ret response, w').
Proof.
  apply (@well_formed_request_answered (Sample.search_env 2 "bucket")
           (Sample.post Sample.scrape_request) JNull (Sample.world Sample.site)
           (Sample.dumps Sample.scrape_request)).
  - sample_posts Sample.scrape_request.
  - right. exists [("keyword", JStr "cat"); ("url", JStr Sample.page_url)], "cat", Sample.page_url.
    split_and!; vm_compute; reflexivity.
Defined.

(** X2. The CORS preflight is answered with status 200 and an empty
    body, whatever the rest of the event. *)
Theorem preflight_answered `{Env} (event context : json) (w : World) :
  http_method_of event = Ret (JStr "OPTIONS") ->
  lambda_handler event context w
  = (Ret {| statusCode := 200; response_headers := CORS_HEADERS; body := "" |}, w).
Proof. intros Hm. unfold lambda_handler. run. by rewrite Hm. Qed.

Lemma preflight_answered_witness :
  @lambda_handler (Sample.search_env 2 "bucket")
    (JObj [("requestContext", JObj [("http", JObj [("method", JStr "OPTIONS")])])])
    JNull (Sample.world Sample.site)
  = (Ret {| statusCode := 200; response_headers := CORS_HEADERS; body := "" |},
     Sample.world Sample.site).
Proof. apply preflight_answered. reflexivity. Defined.

(** ** The handler, continued *)

Lemma handler_on_asks `{Env} (event context : json) (w : World)
    (keyword target_url : string) :
  asks event keyword target_url ->
  lambda_handler event context w
  = match run_request target_url keyword w with
    | (Ret (inr response), w') => (Ret response, w')
    | (Ret (inl result), w') =>
        (Ret {| statusCode := 200; response_headers := CORS_HEADERS;
                body := json_dumps result |}, w')
    | (Raise e, w') => (Raise e, w')
    end.
Proof.
  intros (raw & payload & Hposts & Hloads & Hkw & Hne%is_empty_false & Hurl).
  rewrite (handler_on_request _ _ _ _ _ _ _ Hposts Hloads Hkw Hurl).
  by rewrite Hne.
Qed.

Lemma on_exception_headers `{Env} (e : exn) :
  response_headers (on_exception e) = CORS_HEADERS
  ∧ (statusCode (on_exception e) = 504 ∨ statusCode (on_exception e) = 502
     ∨ statusCode (on_exception e) = 500)%Z.
Proof. destruct e; simpl; auto. Qed.

(** X3. Every response of the handler carries the CORS headers, and its
    status is 200, 400, 500, 502 or 504. *)
Theorem response_headers_and_status `{Env} (event context : json) (w w' : World)
    (response : LambdaResponse) :
  lambda_handler event context w = (Ret response, w') ->
  response_headers response = CORS_HEADERS
  ∧ (statusCode response = 200 ∨ statusCode response = 400
     ∨ statusCode response = 500 ∨ statusCode response = 502
     ∨ statusCode response = 504)%Z.
Proof.
  unfold lambda_handler. run.
  destruct (http_method_of event) as [m|e]; [|discriminate].
  destruct (is_str m "OPTIONS"); [intros [= <- _]; simpl; auto|].
  destruct (py_get event "body" JNull) as [b|e]; [|discriminate].
  destruct (loads_value _) as [[payload|]|e]; [| |discriminate].
  2: { intros [= <- _]. simpl. auto. }
  destruct (py_get payload "keyword" (JStr "")) as [kw|e]; [|discriminate].
  destruct (py_strip kw) as [keyword|e]; [|discriminate].
  destruct (py_get payload "url" (JStr "")) as [u|e]; [|discriminate].
  destruct (py_strip u) as [target_url|e]; [|discriminate].
  destruct (Str.is_empty keyword); [intros [= <- _]; simpl; auto|].
  destruct (run_request_cases target_url keyword w)
    as [(result & w1 & _ & Hrun) | (e & w1 & _ & Hrun)]; run; rewrite Hrun.
  - intros [= <- _]. simpl. auto.
  - intros [= <- _]. destruct (on_exception_headers e) as [Hh Hs].
    split; [done|]. tauto.
Qed.

Lemma response_headers_and_status_witness :
  response_headers
    (@_error (Sample.search_env 2 "bucket") 400 "keyword は必須パラメータです")
  = CORS_HEADERS
  ∧ (statusCode
       (@_error (Sample.search_env 2 "bucket") 400 "keyword は必須パラメータです") = 200
     ∨ statusCode
         (@_error (Sample.search_env 2 "bucket") 400 "keyword は必須パラメータです") = 400
     ∨ statusCode
         (@_error (Sample.search_env 2 "bucket") 400 "keyword は必須パラメータです") = 500
     ∨ statusCode
         (@_error (Sample.search_env 2 "bucket") 400 "keyword は必須パラメータです") = 502
     ∨ statusCode
         (@_error (Sample.search_env 2 "bucket") 400 "keyword は必須パラメータです") = 504)%Z.
Proof.
  apply (@response_headers_and_status (Sample.search_env 2 "bucket") (JObj []) JNull
           (Sample.world Sample.site) (Sample.world Sample.site)
           (@_error (Sample.search_env 2 "bucket") 400 "keyword は必須パラメータです")).
  vm_compute. reflexivity.
Defined.

(** X4. A request that is refused with status 400, for a body that is
    no JSON or a keyword that is missing or blank, makes no request and
    stores nothing: the world is left as it was. *)
Theorem refused_without_requests `{Env} (event context : json) (w : World)
    (raw : string) :
  posts event raw ->
  (json_loads raw = None
   ∨ ∃ payload target_url,
       json_loads raw = Some (JObj payload)
       ∧ text_field "keyword" payload ""
       ∧ text_field "url" payload target_url) ->
  ∃ msg, lambda_handler event context w = (Ret (_error 400 msg), w).
Proof.
  intros Hposts [Hloads | (payload & target_url & Hloads & Hkw & Hurl)].
  - rewrite (handler_on_malformed_body _ _ _ _ Hposts Hloads). by eexists.
  - rewrite (handler_on_request _ _ _ _ _ _ _ Hposts Hloads Hkw Hurl). by eexists.
Qed.

Lemma refused_without_requests_witness :
  (∃ msg,
     @lambda_handler (Sample.search_env 2 "bucket") Sample.cut_post JNull
       (Sample.world Sample.site)
     = (Ret (@_error (Sample.search_env 2 "bucket") 400 msg), Sample.world Sample.site))
  ∧ ∃ msg,
      @lambda_handler (Sample.search_env 2 "bucket") (Sample.post Sample.blank_request)
        JNull (Sample.world Sample.site)
      = (Ret (@_error (Sample.search_env 2 "bucket") 400 msg), Sample.world Sample.site).
Proof.
  split.
  - apply (@refused_without_requests (Sample.search_env 2 "bucket")
             Sample.cut_post JNull (Sample.world Sample.site) "{").
    + exists (JStr "POST"), (JStr "{"). split_and!; vm_compute; reflexivity.
    + left. vm_compute. reflexivity.
  - apply (@refused_without_requests (Sample.search_env 2 "bucket")
             (Sample.post Sample.blank_request) JNull (Sample.world Sample.site)
             (Sample.dumps Sample.blank_request)).
    + sample_posts Sample.blank_request.
    + right. exists [("keyword", JStr "  ")], "".
      split_and!; vm_compute; reflexivity.
Defined.

Lemma run_request_first_raise `{Env} (target_url keyword : string) (w : World) (e : exn) :
  net w (clock w) (first_request target_url keyword) = Raise e ->
  run_request target_url keyword w
  = (Ret (inr (on_exception e)), tick (Get (first_request target_url keyword)) w).
Proof.
  unfold run_request, first_request, scrape_url, search_brave, requests_get. run.
  destruct (Str.is_empty target_url); simpl; by intros ->.
Qed.

Lemma run_request_first_error `{Env} (target_url keyword : string) (w : World)
    (resp : Response) :
  net w (clock w) (first_request target_url keyword) = Ret resp ->
  is_error_status resp = true ->
  ∃ msg,
    run_request target_url keyword w
    = (Ret (inr (on_exception (HTTPError (status_code resp) msg))),
       tick (Get (first_request target_url keyword)) w).
Proof.
  unfold run_request, first_request, scrape_url, search_brave, requests_get,
    raise_for_status. run.
  destruct (Str.is_empty target_url); simpl; intros -> ->; by eexists.
Qed.

(** X5. When the first request of the work (the page of a scrape, the
    web search of a search) raises, or is answered with an error status,
    the handler answers with the response of that exception (504 for a
    timeout, 502 with the status in the message for an error status) and
    nothing else is requested or stored. *)
Theorem first_request_failure `{Env} (event context : json) (w : World)
    (keyword target_url : string) :
  asks event keyword target_url ->
  (∀ e, net w (clock w) (first_request target_url keyword) = Raise e ->
        lambda_handler event context w
        = (Ret (on_exception e), tick (Get (first_request target_url keyword)) w))
  ∧ (∀ resp, net w (clock w) (first_request target_url keyword) = Ret resp ->
             is_error_status resp = true ->
             lambda_handler event context w
             = (Ret (_error 502 ("対象サイトの HTTP エラー: "
                                 +:+ Str.of_Z (status_code resp))),
                tick (Get (first_request target_url keyword)) w)).
Proof.
  intros Hasks. rewrite (handler_on_asks _ _ _ _ _ Hasks). split.
  - intros e He. by rewrite (run_request_first_raise _ _ _ _ He).
  - intros resp Hresp Herr.
    destruct (run_request_first_error _ _ _ _ Hresp Herr) as [msg ->]. done.
Qed.

Ltac sample_asks payload fields :=
  exists (Sample.dumps payload), fields;
  split_and!; [sample_posts payload | vm_compute; reflexivity | vm_compute; reflexivity
              | discriminate | vm_compute; reflexivity].

Lemma first_request_failure_witness :
  @lambda_handler (Sample.search_env 2 "bucket")
    (Sample.post Sample.missing_page_request) JNull (Sample.world Sample.site)
  = (Ret (@_error (Sample.search_env 2 "bucket") 502 "対象サイトの HTTP エラー: 404"),
     tick (Get (page_request "https://site.test/missing")) (Sample.world Sample.site)).
Proof.
  refine (proj2 (@first_request_failure (Sample.search_env 2 "bucket")
            (Sample.post Sample.missing_page_request) JNull (Sample.world Sample.site)
            "cat" "https://site.test/missing" _)
            {| status_code := 404; resp_headers := [("Content-Type", "text/plain")];
               content := encode "not found"; apparent_encoding := None;
               encoding := None |} _ _).
  - sample_asks Sample.missing_page_request
      [("keyword", JStr "cat"); ("url", JStr "https://site.test/missing")].
  - vm_compute. reflexivity.
  - reflexivity.
Defined.

Lemma scrape_url_on_reply `{Env} (page_url keyword : string) (w : World)
    (resp : Response) :
  net w (clock w) (page_request page_url) = Ret resp ->
  is_error_status resp = false ->
  scrape_url page_url keyword w
  = match BeautifulSoup (page_text resp) with
    | Ret sp => scrape_soup sp page_url keyword (tick (Get (page_request page_url)) w)
    | Raise e => (Raise e, tick (Get (page_request page_url)) w)
    end.
Proof.
  intros Hnet Hok. unfold scrape_url, raise_for_status, requests_get, page_text. run.
  rewrite Hnet, Hok. simpl. by destruct (BeautifulSoup _).
Qed.

Lemma scrape_url_shape `{Env} (page_url keyword : string) (w w' : World) (result : json) :
  scrape_url page_url keyword w = (Ret result, w') ->
  field "mode" result = Some (JStr "scrape")
  ∧ field "keyword" result = Some (JStr keyword)
  ∧ field "url" result = Some (JStr page_url)
  ∧ ∃ images, field "images" result = Some (JArr images)
              ∧ (length images ≤ MAX_IMAGES)%nat.
Proof.
  unfold scrape_url, raise_for_status, requests_get. run.
  destruct (net w (clock w) (page_request page_url)) as [resp|e]; [|discriminate].
  destruct (is_error_status resp); [discriminate|]. simpl.
  destruct (BeautifulSoup _) as [sp|e]; [|discriminate].
  intros (images & Hc & ->)%scrape_soup_inv. split_and!; try done.
  exists images. split; [reflexivity|]. by eapply collect_images_length.
Qed.

(** The loop returns when [urljoin] resolves every source of its tags:
    no request and no upload can make it raise. *)
Lemma collect_loop_returns `{Env} (base_url : string) (imgs : list node)
    (acc : list json) (w : World) (addrs : list string) :
  resolve_all base_url (harvest_sources imgs) = Ret addrs ->
  ∃ images w', collect_loop base_url imgs acc w = (Ret images, w').
Proof.
  revert acc w addrs. induction imgs as [|img imgs IH]; intros acc w addrs.
  - intros _. by exists acc, w.
  - rewrite collect_loop_cons. unfold harvest_sources. cbn [flat_map].
    fold (harvest_sources imgs). rewrite harvest_source_loop.
    destruct (MAX_IMAGES <=? length acc)%nat; [intros _; by exists acc, w|].
    destruct (_ || _); [apply IH|].
    cbn [app resolve_all]. run.
    destruct (urljoin base_url _) as [full_url|e]; [|discriminate].
    destruct (resolve_all base_url (harvest_sources imgs)) as [others|e] eqn:Hres;
      [|discriminate].
    intros _. destruct (negb (is_http full_url)); [by eapply IH|].
    destruct (upload_returns full_url w) as (o & w1 & ->).
    destruct o as [u|]; [|by eapply IH].
    destruct (Str.is_empty u); by eapply IH.
Qed.

Lemma collect_images_returns `{Env} (sp : soup) (base_url : string) (w : World) :
  (Str.is_empty IMAGE_BUCKET = false ->
   ∃ addrs, resolve_all base_url (harvest_sources (find_all ["img"] sp)) = Ret addrs) ->
  ∃ images w', _collect_images sp base_url w = (Ret images, w').
Proof.
  unfold _collect_images. destruct (Str.is_empty IMAGE_BUCKET); [intros _; by exists [], w|].
  intros [addrs Hres]; [done|]. rewrite <- harvest_sources_selected in Hres.
  by eapply collect_loop_returns.
Qed.

(** X6. Once the page of a scrape is fetched with a status that is no
    error, the parser returns a tree for its text and, where a bucket is
    configured, [urljoin] resolves the source of every image tag left
    after the noise is removed, the request is answered with status 200
    and a scrape result for the keyword and the address, with at most
    [MAX_IMAGES] images: no failed request or upload of an image can
    fail the request. *)
Theorem fetched_page_answered `{Env} (event context : json) (w : World)
    (keyword target_url : string) (resp : Response) (sp : soup) :
  asks event keyword target_url -> target_url ≠ "" ->
  net w (clock w) (page_request target_url) = Ret resp ->
  is_error_status resp = false ->
  BeautifulSoup (page_text resp) = Ret sp ->
  (Str.is_empty IMAGE_BUCKET = false ->
   ∃ addrs,
     resolve_all target_url
       (harvest_sources (find_all ["img"] (decompose_all NOISE_TAGS sp))) = Ret addrs) ->
  ∃ result w' images,
    lambda_handler event context w
    = (Ret {| statusCode := 200; response_headers := CORS_HEADERS;
              body := json_dumps result |}, w')
    ∧ field "mode" result = Some (JStr "scrape")
    ∧ field "keyword" result = Some (JStr keyword)
    ∧ field "url" result = Some (JStr target_url)
    ∧ field "images" result = Some (JArr images)
    ∧ (length images ≤ MAX_IMAGES)%nat.
Proof.
  intros Hasks Hurl%is_empty_false Hnet Hok Hparse Hres.
  rewrite (handler_on_asks _ _ _ _ _ Hasks).
  pose proof (scrape_url_on_reply target_url keyword w resp Hnet Hok) as Hrun.
  rewrite Hparse in Hrun.
  destruct (collect_images_returns _ target_url (tick (Get (page_request target_url)) w)
              Hres) as (images & w' & Hc).
  rewrite (scrape_soup_result _ _ keyword _ _ _ Hc) in Hrun.
  unfold run_request. run. rewrite Hurl. simpl. rewrite Hrun.
  eexists _, w', images. split_and!; [reflexivity | done | done | done | done |].
  by eapply collect_images_length.
Qed.

Lemma fetched_page_answered_witness :
  ∃ result w' images,
    @lambda_handler (Sample.search_env 2 "bucket") (Sample.post Sample.scrape_request)
      JNull (Sample.world Sample.site)
    = (Ret {| statusCode := 200; response_headers := CORS_HEADERS;
              body := Sample.dumps result |}, w')
    ∧ field "mode" result = Some (JStr "scrape")
    ∧ field "keyword" result = Some (JStr "cat")
    ∧ field "url" result = Some (JStr Sample.page_url)
    ∧ field "images" result = Some (JArr images)
    ∧ (length images ≤ MAX_IMAGES)%nat.
Proof.
  apply (@fetched_page_answered (Sample.search_env 2 "bucket")
           (Sample.post Sample.scrape_request) JNull (Sample.world Sample.site)
           "cat" Sample.page_url
           {| status_code := 200; resp_headers := [("Content-Type", "text/html")];
              content := encode Sample.page_html; apparent_encoding := None;
              encoding := None |}
           Sample.page_soup).
  - sample_asks Sample.scrape_request
      [("keyword", JStr "cat"); ("url", JStr Sample.page_url)].
  - discriminate.
  - vm_compute. reflexivity.
  - reflexivity.
  - vm_compute. reflexivity.
  - intros _. eexists. vm_compute. reflexivity.
Defined.

(** The loop raises what [urljoin] raises on the first source of its
    tags, before any request. *)
Lemma collect_loop_first_raise `{Env} (base_url : string) (imgs : list node)
    (acc : list json) (w : World) (src : string) (rest : list string) (e : exn) :
  (length acc < MAX_IMAGES)%nat ->
  harvest_sources imgs = src :: rest ->
  urljoin base_url src = Raise e ->
  collect_loop base_url imgs acc w = (Raise e, w).
Proof.
  intros Hlen. induction imgs as [|img imgs IH]; [discriminate|].
  rewrite collect_loop_cons. unfold harvest_sources. cbn [flat_map].
  fold (harvest_sources imgs). rewrite harvest_source_loop.
  apply Nat.leb_gt in Hlen. rewrite Hlen.
  destruct (_ || _); [apply IH|].
  intros [= -> _] Hjoin. by rewrite Hjoin.
Qed.

(** X20. When the page of a scrape is fetched and parsed, a bucket is
    configured and [urljoin] raises on the first source of the image
    tags left after the noise is removed, the handler answers with the
    response of that exception (status 500 for the [ValueError] of a
    malformed address), after the one request for the page: no image is
    requested or stored. *)
Theorem unresolved_source_fails_request `{Env} (event context : json) (w : World)
    (keyword target_url : string) (resp : Response) (sp : soup)
    (src : string) (rest : list string) (e : exn) :
  asks event keyword target_url -> target_url ≠ "" ->
  net w (clock w) (page_request target_url) = Ret resp ->
  is_error_status resp = false ->
  BeautifulSoup (page_text resp) = Ret sp ->
  Str.is_empty IMAGE_BUCKET = false ->
  harvest_sources (find_all ["img"] (decompose_all NOISE_TAGS sp)) = src :: rest ->
  urljoin target_url src = Raise e ->
  lambda_handler event context w
  = (Ret (on_exception e), tick (Get (page_request target_url)) w).
Proof.
  intros Hasks Hurl%is_empty_false Hnet Hok Hparse Hbucket Hsrc Hjoin.
  rewrite (handler_on_asks _ _ _ _ _ Hasks).
  pose proof (scrape_url_on_reply target_url keyword w resp Hnet Hok) as Hrun.
  rewrite Hparse in Hrun. rewrite <- harvest_sources_selected in Hsrc.
  assert (length (@nil json) < MAX_IMAGES)%nat as Hlen by (simpl; unfold MAX_IMAGES; lia).
  pose proof (collect_loop_first_raise target_url _ [] (tick (Get (page_request target_url)) w)
                _ _ _ Hlen Hsrc Hjoin) as Hloop.
  unfold scrape_soup, _collect_images in Hrun. rewrite Hbucket in Hrun.
  unfold run_request. run.
  rewrite Hloop in Hrun. rewrite Hurl. simpl. by rewrite Hrun.
Qed.

Lemma unresolved_source_fails_request_witness :
  @lambda_handler (Sample.search_env 2 "bucket") (Sample.post Sample.broken_request)
    JNull (Sample.world Sample.site)
  = (Ret (@_error (Sample.search_env 2 "bucket") 500 "内部エラー: Invalid IPv6 URL"),
     tick (Get (page_request Sample.broken_url)) (Sample.world Sample.site)).
Proof.
  apply (@unresolved_source_fails_request (Sample.search_env 2 "bucket")
           (Sample.post Sample.broken_request) JNull (Sample.world Sample.site)
           "cat" Sample.broken_url
           {| status_code := 200; resp_headers := [("Content-Type", "text/html")];
              content := encode Sample.broken_html; apparent_encoding := None;
              encoding := None |}
           Sample.broken_soup "//[" ["./a.jpg"]
           (PyError "ValueError" "Invalid IPv6 URL")).
  - sample_asks Sample.broken_request
      [("keyword", JStr "cat"); ("url", JStr Sample.broken_url)].
  - discriminate.
  - vm_compute. reflexivity.
  - reflexivity.
  - vm_compute. reflexivity.
  - reflexivity.
  - vm_compute. reflexivity.
  - reflexivity.
Defined.

(** X21. When the page of a scrape is fetched and the parser raises on
    its text, the handler answers with the response of that exception,
    after the one request for the page. *)
Theorem rejected_markup_fails_request `{Env} (event context : json) (w : World)
    (keyword target_url : string) (resp : Response) (e : exn) :
  asks event keyword target_url -> target_url ≠ "" ->
  net w (clock w) (page_request target_url) = Ret resp ->
  is_error_status resp = false ->
  BeautifulSoup (page_text resp) = Raise e ->
  lambda_handler event context w
  = (Ret (on_exception e), tick (Get (page_request target_url)) w).
Proof.
  intros Hasks Hurl%is_empty_false Hnet Hok Hparse.
  rewrite (handler_on_asks _ _ _ _ _ Hasks).
  pose proof (scrape_url_on_reply target_url keyword w resp Hnet Hok) as Hrun.
  rewrite Hparse in Hrun. unfold run_request. run.
  rewrite Hurl. simpl. by rewrite Hrun.
Qed.

Lemma rejected_markup_fails_request_witness :
  @lambda_handler (Sample.search_env 2 "bucket") (Sample.post Sample.rejected_request)
    JNull (Sample.world Sample.site)
  = (Ret (@_error (Sample.search_env 2 "bucket") 500
            "内部エラー: unknown status keyword 'foo' in marked section"),
     tick (Get (page_request Sample.rejected_url)) (Sample.world Sample.site)).
Proof.
  apply (@rejected_markup_fails_request (Sample.search_env 2 "bucket")
           (Sample.post Sample.rejected_request) JNull (Sample.world Sample.site)
           "cat" Sample.rejected_url
           {| status_code := 200; resp_headers := [("Content-Type", "text/html")];
              content := encode Sample.rejected_html; apparent_encoding := None;
              encoding := None |}
           (PyError "ParserRejectedMarkup"
              "unknown status keyword 'foo' in marked section")).
  - sample_asks Sample.rejected_request
      [("keyword", JStr "cat"); ("url", JStr Sample.rejected_url)].
  - discriminate.
  - vm_compute. reflexivity.
  - reflexivity.
  - vm_compute. reflexivity.
Defined.

(** X7. A response with status 200 to a request for a keyword carries
    the result of the work: a scrape result when the request has an
    address and a search result when it has none, for the stripped
    keyword. *)
Theorem success_reports_mode `{Env} (event context : json) (w w' : World)
    (keyword target_url : string) (response : LambdaResponse) :
  asks event keyword target_url ->
  lambda_handler event context w = (Ret response, w') ->
  statusCode response = 200%Z ->
  ∃ result,
    body response = json_dumps result
    ∧ field "mode" result
      = Some (JStr (if Str.is_empty target_url then "search" else "scrape"))
    ∧ field "keyword" result = Some (JStr keyword).
Proof.
  intros Hasks. rewrite (handler_on_asks _ _ _ _ _ Hasks).
  destruct (run_request_cases target_url keyword w)
    as [(result & w1 & Hop & ->) | (e & w1 & _ & ->)].
  - intros [= <- _] _. exists result. split; [done|].
    destruct (Str.is_empty target_url); simpl in Hop.
    + destruct (search_brave_returns _ _ _ _ Hop) as (results & images & -> & _). done.
    + by destruct (scrape_url_shape _ _ _ _ _ Hop) as (Hm & Hk & _).
  - intros [= <- _] Hs. destruct (on_exception_headers e) as [_ Hst]. lia.
Qed.

Lemma success_reports_mode_witness :
  ∃ result,
    Sample.dumps
      (Sample.result_of
         (@search_brave (Sample.search_env 2 "bucket") "cat"
            (Sample.world (Sample.search_service 200 2))))
    = Sample.dumps result
    ∧ field "mode" result = Some (JStr "search")
    ∧ field "keyword" result = Some (JStr "cat").
Proof.
  apply (@success_reports_mode (Sample.search_env 2 "bucket")
           (Sample.post Sample.search_request) JNull
           (Sample.world (Sample.search_service 200 2))
           (snd (@lambda_handler (Sample.search_env 2 "bucket")
                   (Sample.post Sample.search_request) JNull
                   (Sample.world (Sample.search_service 200 2))))
           "cat" ""
           {| statusCode := 200; response_headers := CORS_HEADERS;
              body := Sample.dumps
                        (Sample.result_of
                           (@search_brave (Sample.search_env 2 "bucket") "cat"
                              (Sample.world (Sample.search_service 200 2)))) |}).
  - sample_asks Sample.search_request [("keyword", JStr " cat ")].
  - vm_compute. reflexivity.
  - reflexivity.
Defined.

(** ** The uploader, continued *)

(** X8. An upload never raises. When its request raises, or is answered
    with an error status or a content type that does not start with
    [image/], it returns nothing and stores nothing. Otherwise it stores
    the bytes of the reply, once, in the configured bucket with the
    content type of the reply, and returns the address of the object
    when the store accepted it. *)
Theorem upload_outcomes `{Env} (img_url : string) (w : World) :
  let rq := image_request img_url in
  (∃ o w', _upload_image_to_s3 img_url w = (Ret o, w'))
  ∧ (∀ e, net w (clock w) rq = Raise e ->
          _upload_image_to_s3 img_url w = (Ret None, tick (Get rq) w))
  ∧ (∀ resp, net w (clock w) rq = Ret resp ->
             is_error_status resp = true
             ∨ Str.startswith (content_type_of resp) "image/" = false ->
             _upload_image_to_s3 img_url w = (Ret None, tick (Get rq) w))
  ∧ (∀ resp, net w (clock w) rq = Ret resp ->
             is_error_status resp = false ->
             Str.startswith (content_type_of resp) "image/" = true ->
             let key := storage_key img_url (extension_of (content_type_of resp)) in
             _upload_image_to_s3 img_url w
             = (Ret (match store w (S (clock w)) IMAGE_BUCKET key with
                     | None => Some (storage_url key)
                     | Some _ => None
                     end),
                tick (PutObject IMAGE_BUCKET key (content resp) (content_type_of resp))
                  (tick (Get rq) w))).
Proof.
  intros rq. split; [apply upload_returns|].
  unfold _upload_image_to_s3, raise_for_status, requests_get, put_object. run.
  fold rq. split_and!.
  - by intros e ->.
  - intros resp -> [Herr | Htype].
    + by rewrite Herr.
    + destruct (is_error_status resp); [done|]. by rewrite Htype.
  - intros resp -> Herr Htype. rewrite Herr, Htype. simpl.
    by destruct (store w _ _ _).
Qed.

Lemma upload_outcomes_witness :
  @_upload_image_to_s3 Sample.site_env "https://site.test/missing"
    (Sample.world Sample.site)
  = (Ret None,
     tick (Get (image_request "https://site.test/missing")) (Sample.world Sample.site)).
Proof.
  refine (proj1 (proj2 (proj2 (@upload_outcomes Sample.site_env
            "https://site.test/missing" (Sample.world Sample.site))))
            {| status_code := 404; resp_headers := [("Content-Type", "text/plain")];
               content := encode "not found"; apparent_encoding := None;
               encoding := None |} _ _).
  - vm_compute. reflexivity.
  - left. reflexivity.
Defined.

(** X9. A reply with no [Content-Type] header is taken for a JPEG
    image: when its status is no error its bytes are stored with the
    content type [image/jpeg], under the key of that type. *)
Theorem upload_without_content_type `{Env} (img_url : string) (w : World)
    (resp : Response) :
  net w (clock w) (image_request img_url) = Ret resp ->
  is_error_status resp = false ->
  header_lookup "Content-Type" (resp_headers resp) = None ->
  ∃ o,
    _upload_image_to_s3 img_url w
    = (Ret o,
       tick (PutObject IMAGE_BUCKET (storage_key img_url (extension_of "image/jpeg"))
               (content resp) "image/jpeg")
         (tick (Get (image_request img_url)) w)).
Proof.
  intros Hnet Herr Hhead.
  assert (content_type_of resp = "image/jpeg") as Htype.
  { unfold content_type_of, header_get. by rewrite Hhead. }
  unfold _upload_image_to_s3, raise_for_status, requests_get, put_object. run.
  rewrite Hnet, Herr, Htype. simpl.
  destruct (store w _ _ _); by eexists.
Qed.

Lemma upload_without_content_type_witness :
  ∃ o,
    @_upload_image_to_s3 Sample.site_env "https://img.test/bare"
      (Sample.world Cases.bare_image)
    = (Ret o,
       tick (PutObject "bucket" (storage_key "https://img.test/bare" ".jpg")
               (encode "JFIF") "image/jpeg")
         (tick (Get (image_request "https://img.test/bare"))
            (Sample.world Cases.bare_image))).
Proof.
  apply (@upload_without_content_type Sample.site_env "https://img.test/bare"
           (Sample.world Cases.bare_image)
           {| status_code := 200; resp_headers := []; content := encode "JFIF";
              apparent_encoding := None; encoding := None |});
    reflexivity.
Defined.

(** ** The storage key *)

Lemma length_le_bytes (n : nat) (x : Z) : length (MD5.le_bytes n x) = n.
Proof. unfold MD5.le_bytes. by rewrite length_map, length_seq. Qed.

Lemma le_bytes_range (n : nat) (x : Z) :
  Forall (λ b, 0 ≤ b < 256)%Z (MD5.le_bytes n x).
Proof.
  unfold MD5.le_bytes. apply Forall_forall. intros b [i [<- _]]%list_elem_of_In%in_map_iff.
  apply Z.mod_pos_bound. lia.
Qed.

Lemma length_digest (msg : list Z) :
  length (MD5.digest msg) = 16%nat ∧ Forall (λ b, 0 ≤ b < 256)%Z (MD5.digest msg).
Proof.
  unfold MD5.digest. destruct (fold_left _ _ _) as [[[a b] c] d].
  rewrite !length_app, !length_le_bytes. split; [done|].
  rewrite !Forall_app. split_and!; apply le_bytes_range.
Qed.

Lemma hex_digit_lower (z : Z) :
  (0 ≤ z < 16)%Z -> is_lower_hex (MD5.hex_digit z) = true.
Proof.
  intros Hz.
  assert (z = 0 ∨ z = 1 ∨ z = 2 ∨ z = 3 ∨ z = 4 ∨ z = 5 ∨ z = 6 ∨ z = 7 ∨ z = 8
          ∨ z = 9 ∨ z = 10 ∨ z = 11 ∨ z = 12 ∨ z = 13 ∨ z = 14 ∨ z = 15)%Z
    as Hcases by lia.
  destruct_or!; subst z; reflexivity.
Qed.

Lemma hex_shape (bs : list Z) :
  Forall (λ b, 0 ≤ b < 256)%Z bs ->
  String.length (MD5.hex bs) = (2 * length bs)%nat
  ∧ all_chars is_lower_hex (MD5.hex bs) = true.
Proof.
  induction 1 as [|b bs Hb _ [IHl IHc]]; simpl; [done|].
  split; [lia|].
  rewrite !hex_digit_lower, IHc; [done | |].
  - apply Z.mod_pos_bound. lia.
  - split; [apply Z.div_pos; lia | apply Z.div_lt_upper_bound; lia].
Qed.

(** X10. Whatever the address and the content type, the storage key is
    [images/], thirty-two lower-case hexadecimal digits and an
    extension; the extension is never empty and never [.jpe], and is
    [.jpg] for a content type with no known extension. *)
Theorem storage_key_shape `{Env} (img_url content_type : string) :
  ∃ h,
    storage_key img_url (extension_of content_type)
    = "images/" +:+ h +:+ extension_of content_type
    ∧ String.length h = 32%nat
    ∧ all_chars is_lower_hex h = true
    ∧ extension_of content_type ≠ ""
    ∧ extension_of content_type ≠ ".jpe"
    ∧ (guess_extension content_type = None -> extension_of content_type = ".jpg").
Proof.
  exists (MD5.hexdigest (encode img_url)).
  destruct (length_digest (encode img_url)) as [Hlen Hrange].
  destruct (hex_shape _ Hrange) as [Hl Hc]. rewrite Hlen in Hl.
  split_and!; [done | done | done | | |].
  - unfold extension_of.
    assert (Str.or_else (default "" (guess_extension content_type)) ".jpg" ≠ "") as Hne.
    { unfold Str.or_else. by destruct (default "" (guess_extension content_type)). }
    by destruct (String.eqb _ ".jpe").
  - unfold extension_of.
    destruct (String.eqb _ ".jpe") eqn:Heq; [discriminate|].
    by apply String.eqb_neq in Heq.
  - intros Hnone. unfold extension_of. by rewrite Hnone.
Qed.

(** ** The order of the images *)

(** A tag without a [src] attribute is no candidate. *)
Lemma image_candidates_selected `{Env} (base_url : string) (imgs : list node) :
  image_candidates base_url (List.filter has_src imgs) = image_candidates base_url imgs.
Proof.
  unfold image_candidates. induction imgs as [|img imgs IH]; [done|].
  cbn [List.filter flat_map]. rewrite <- IH. unfold has_src.
  destruct (attr img "src") as [v|] eqn:Hattr; [reflexivity|].
  unfold image_candidate, attr_get. by rewrite Hattr.
Qed.

Lemma collect_loop_order `{Env} (base_url : string) (imgs : list node)
    (acc all : list json) (w w' : World) :
  collect_loop base_url imgs acc w = (Ret all, w') ->
  ∃ more picked,
    all = acc ++ more
    ∧ picked `sublist_of` image_candidates base_url imgs
    ∧ Forall2 entry_of more picked.
Proof.
  revert acc w. induction imgs as [|img imgs IH]; intros acc w.
  - intros [= <- _]. exists [], []. rewrite app_nil_r. by repeat split.
  - rewrite collect_loop_cons. unfold image_candidates. cbn [flat_map].
    fold (image_candidates base_url imgs). unfold image_candidate.
    destruct (MAX_IMAGES <=? length acc)%nat.
    { intros [= <- _]. exists [], []. rewrite app_nil_r.
      split_and!; [done | apply sublist_nil_l | done]. }
    destruct (_ || _); [apply IH|].
    destruct (urljoin base_url _) as [full_url|e]; [|discriminate].
    destruct (is_http full_url); simpl; [|apply IH].
    destruct (upload_returns full_url w) as (o & w1 & ->).
    assert (collect_loop base_url imgs acc w1 = (Ret all, w') ->
            ∃ more picked,
              all = acc ++ more
              ∧ picked `sublist_of`
                  (full_url, attr_get img "alt" "") :: image_candidates base_url imgs
              ∧ Forall2 entry_of more picked) as Hskip.
    { intros (more & picked & Hall & Hsub & Hent)%IH.
      exists more, picked. split_and!; [done | by apply sublist_cons | done]. }
    destruct o as [u|]; [|apply Hskip].
    destruct (Str.is_empty u); [apply Hskip|].
    intros (more & picked & -> & Hsub & Hent)%IH.
    eexists (_ :: more), (_ :: picked). split_and!.
    + by rewrite <- app_assoc.
    + by apply sublist_skip.
    + constructor; [by exists u | done].
Qed.

(** X11. The images a harvest returns are in document order: the
    entries record, in their order, the addresses and alternative texts
    of some of the candidate tags of the page, in the order of the tags;
    a tag with no [alt] gives the empty text. *)
Theorem images_in_document_order `{Env} (sp : soup) (base_url : string) (w w' : World)
    (images : list json) :
  _collect_images sp base_url w = (Ret images, w') ->
  ∃ picked,
    picked `sublist_of` image_candidates base_url (find_all ["img"] sp)
    ∧ Forall2 entry_of images picked.
Proof.
  unfold _collect_images. destruct (Str.is_empty IMAGE_BUCKET).
  - intros [= <- _]. exists []. split; [apply sublist_nil_l | done].
  - intros (more & picked & -> & Hsub & Hent)%collect_loop_order.
    rewrite image_candidates_selected in Hsub. by exists picked.
Qed.

Lemma images_in_document_order_witness :
  ∃ picked,
    picked `sublist_of`
      @image_candidates Sample.site_env Sample.page_url
        (find_all ["img"] (decompose_all NOISE_TAGS Sample.page_soup))
    ∧ Forall2 entry_of
        (Sample.list_of
           (fst (@_collect_images Sample.site_env
                   (decompose_all NOISE_TAGS Sample.page_soup) Sample.page_url
                   (Sample.world Sample.site))))
        picked.
Proof.
  apply (@images_in_document_order Sample.site_env
           (decompose_all NOISE_TAGS Sample.page_soup) Sample.page_url
           (Sample.world Sample.site)
           (snd (@_collect_images Sample.site_env
                   (decompose_all NOISE_TAGS Sample.page_soup) Sample.page_url
                   (Sample.world Sample.site)))).
  vm_compute. reflexivity.
Defined.

(** ** The requests of a search *)

Lemma upload_value_events `{Env} (item src : json) (w : World) :
  py_get item "properties" (JObj []) ≫= (λ props, py_get props "url" (JStr "")) = Ret src ->
  truthy src = true ->
  ∃ o w' evs,
    upload_value src w = (Ret o, w')
    ∧ trace w' = evs ++ trace w
    ∧ Forall (search_event [item]) evs
    ∧ (length (List.filter is_get evs) ≤ 1)%nat
    ∧ (length evs ≤ 2)%nat.
Proof.
  intros Hsrc Htrue. destruct src as [| | |s| |]; simpl;
    try (exists None, w, []; split_and!; [done | done | constructor | simpl; lia | simpl; lia]).
  assert (search_source item = Some s) as Hsource.
  { unfold search_source. rewrite Hsrc. simpl in Htrue.
    by destruct (Str.is_empty s). }
  destruct (upload_cases s w) as (o & w' & evs & Hrun & Ht & Hev & _).
  exists o, w', evs. split_and!; [done | done | | |].
  - destruct Hev as [-> | (bucket & ext & payload & ctype & ->)];
      repeat constructor; exists item, s; split_and!; try done; try apply list_elem_of_here.
    by exists ext.
  - destruct Hev as [-> | (bucket & ext & payload & ctype & ->)]; simpl; lia.
  - destruct Hev as [-> | (bucket & ext & payload & ctype & ->)]; simpl; lia.
Qed.

Lemma search_event_mono (items items' : list json) (ev : io_event) :
  (∀ i, i ∈ items -> i ∈ items') -> search_event items ev -> search_event items' ev.
Proof. intros Hsub (item & s & Hin & Hrest). exists item, s. split; [by apply Hsub | done]. Qed.

(** The image loop of a search, whether it returns or raises. *)
Lemma search_images_loop_events `{Env} (items acc : list json) (w w' : World)
    (o : outcome (list json)) :
  search_images_loop items acc w = (o, w') ->
  ∃ evs,
    trace w' = evs ++ trace w
    ∧ Forall (search_event items) evs
    ∧ (length (List.filter is_get evs) ≤ length items)%nat
    ∧ (length evs ≤ 2 * length items)%nat.
Proof.
  revert acc w. induction items as [|item items IH]; intros acc w; cbn [search_images_loop].
  - run. intros [= _ <-]. exists []. split_and!; [done | constructor | simpl; lia | simpl; lia].
  - assert (∀ acc' w1 evs1,
              trace w1 = evs1 ++ trace w ->
              Forall (search_event [item]) evs1 ->
              (length (List.filter is_get evs1) ≤ 1)%nat -> (length evs1 ≤ 2)%nat ->
              search_images_loop items acc' w1 = (o, w') ->
              ∃ evs,
                trace w' = evs ++ trace w
                ∧ Forall (search_event (item :: items)) evs
                ∧ (length (List.filter is_get evs) ≤ length (item :: items))%nat
                ∧ (length evs ≤ 2 * length (item :: items))%nat) as Hnext.
    { intros acc' w1 evs1 Ht1 Hev1 Hg1 Hl1 (evs & Ht & Hev & Hg & Hl)%IH.
      exists (evs ++ evs1). split_and!.
      - by rewrite Ht, Ht1, app_assoc.
      - apply Forall_app. split.
        + eapply Forall_impl; [exact Hev|]. intros ev. apply search_event_mono.
          intros i Hi. by right.
        + eapply Forall_impl; [exact Hev1|]. intros ev. apply search_event_mono.
          intros i ->%list_elem_of_singleton. by left.
      - rewrite List.filter_app, length_app. simpl. lia.
      - rewrite length_app. simpl. lia. }
    assert (∀ e, (@Raise (list json) e, w) = (o, w') ->
              ∃ evs,
                trace w' = evs ++ trace w
                ∧ Forall (search_event (item :: items)) evs
                ∧ (length (List.filter is_get evs) ≤ length (item :: items))%nat
                ∧ (length evs ≤ 2 * length (item :: items))%nat) as Hraise.
    { intros e [= _ <-]. exists []. split_and!; [done | constructor | simpl; lia | simpl; lia]. }
    run.
    destruct (py_get item "properties" (JObj [])) as [props|e] eqn:Hprops; [|apply Hraise].
    destruct (py_get props "url" (JStr "")) as [src|e] eqn:Hsrc; [|apply Hraise].
    destruct (truthy src) eqn:Htrue; simpl.
    2: { apply (Hnext acc w []); [done | constructor | simpl; lia | simpl; lia]. }
    destruct (upload_value_events item src w) as (u & w1 & evs1 & -> & Ht1 & Hev1 & Hg1 & Hl1);
      [by rewrite Hprops | done |].
    destruct u as [u|]; [|by apply (Hnext acc w1 evs1)].
    destruct (Str.is_empty u); [by apply (Hnext acc w1 evs1)|].
    destruct (py_get item "title" (JStr "")) as [alt|e].
    + by apply (Hnext _ w1 evs1).
    + intros [= _ <-]. exists evs1. split_and!; [done | | simpl; lia | simpl; lia].
      eapply Forall_impl; [exact Hev1|]. intros ev. apply search_event_mono.
      intros i ->%list_elem_of_singleton. by left.
Qed.

(** X12. Every request and stored object of the image part of a search
    is for the [properties.url] of one of the first [MAX_IMAGES] results
    of the image search, a string that is not empty; at most
    [MAX_IMAGES] images are requested, whether the part returns or
    raises. *)
Theorem search_images_from_results `{Env} (img_data : json) (all : list json)
    (w w' : World) (o : outcome (list json)) :
  py_get img_data "results" (JArr []) = Ret (JArr all) ->
  image_results img_data w = (o, w') ->
  ∃ evs,
    trace w' = evs ++ trace w
    ∧ Forall (search_event (firstn MAX_IMAGES all)) evs
    ∧ (length (List.filter is_get evs) ≤ MAX_IMAGES)%nat.
Proof.
  intros Hget. unfold image_results. run. rewrite Hget. simpl.
  intros (evs & Ht & Hev & Hg & _)%search_images_loop_events.
  exists evs. split_and!; [done | done |].
  rewrite length_firstn in Hg. lia.
Qed.

Lemma search_images_from_results_witness :
  ∃ evs,
    trace (snd (@image_results (Sample.search_env 12 "bucket") (Sample.images_doc 12)
                  (Sample.world (Sample.search_service 200 12))))
    = evs ++ trace (Sample.world (Sample.search_service 200 12))
    ∧ Forall (search_event (firstn MAX_IMAGES (map Sample.image_item (seq 0 12)))) evs
    ∧ (length (List.filter is_get evs) ≤ MAX_IMAGES)%nat.
Proof.
  apply (@search_images_from_results (Sample.search_env 12 "bucket")
           (Sample.images_doc 12) (map Sample.image_item (seq 0 12))
           (Sample.world (Sample.search_service 200 12)) _
           (fst (@image_results (Sample.search_env 12 "bucket") (Sample.images_doc 12)
                   (Sample.world (Sample.search_service 200 12))))).
  - reflexivity.
  - apply surjective_pairing.
Defined.

Lemma image_results_events `{Env} (img_data : json) (w w' : World)
    (o : outcome (list json)) :
  image_results img_data w = (o, w') ->
  ∃ evs, trace w' = evs ++ trace w
         ∧ (length (List.filter is_get evs) ≤ MAX_IMAGES)%nat.
Proof.
  unfold image_results. run.
  destruct (py_get img_data "results" (JArr [])) as [found|e].
  2: { intros [= _ <-]. exists []. split; [done | simpl; lia]. }
  destruct (py_slice found MAX_IMAGES) as [capped|e] eqn:Hslice.
  2: { intros [= _ <-]. exists []. split; [done | simpl; lia]. }
  destruct (py_iter capped) as [items|e] eqn:Hiter.
  2: { intros [= _ <-]. exists []. split; [done | simpl; lia]. }
  intros (evs & Ht & _ & Hg & _)%search_images_loop_events.
  pose proof (slice_iter_length _ _ _ _ Hslice Hiter).
  exists evs. split; [done | lia].
Qed.

(** X13. A search, whether it returns or raises, first requests the web
    search, then makes at most one more request to the search service
    and at most [MAX_IMAGES] requests for images; with no bucket
    configured the web search is its only request. *)
Theorem search_requests_bounded `{Env} (keyword : string) (w w' : World)
    (o : outcome json) :
  search_brave keyword w = (o, w') ->
  ∃ evs,
    trace w' = evs ++ [Get (web_search_request keyword)] ++ trace w
    ∧ (length (List.filter is_get evs) ≤ 1 + MAX_IMAGES)%nat
    ∧ (evs ≠ [] -> last evs = Some (Get (image_search_request keyword)))
    ∧ (IMAGE_BUCKET = "" -> evs = []).
Proof.
  assert (∀ (o1 : outcome json) w1,
            trace w1 = [Get (web_search_request keyword)] ++ trace w ->
            (o1, w1) = (o, w') ->
            ∃ evs,
              trace w' = evs ++ [Get (web_search_request keyword)] ++ trace w
              ∧ (length (List.filter is_get evs) ≤ 1 + MAX_IMAGES)%nat
              ∧ (evs ≠ [] -> last evs = Some (Get (image_search_request keyword)))
              ∧ (IMAGE_BUCKET = "" -> evs = [])) as Hstop.
  { intros o1 w1 Ht [= _ <-]. exists []. split_and!; [done | simpl; lia | done | done]. }
  assert (∀ (o1 : outcome json) w1 evs,
            trace w1 = evs ++ [Get (image_search_request keyword)]
                       ++ [Get (web_search_request keyword)] ++ trace w ->
            (length (List.filter is_get evs) ≤ MAX_IMAGES)%nat ->
            IMAGE_BUCKET ≠ "" ->
            (o1, w1) = (o, w') ->
            ∃ evs,
              trace w' = evs ++ [Get (web_search_request keyword)] ++ trace w
              ∧ (length (List.filter is_get evs) ≤ 1 + MAX_IMAGES)%nat
              ∧ (evs ≠ [] -> last evs = Some (Get (image_search_request keyword)))
              ∧ (IMAGE_BUCKET = "" -> evs = [])) as Hstop2.
  { intros o1 w1 evs Ht Hg Hb [= _ <-].
    exists (evs ++ [Get (image_search_request keyword)]). split_and!.
    - by rewrite Ht, <- app_assoc.
    - rewrite List.filter_app, length_app. simpl. lia.
    - intros _. apply last_snoc.
    - done. }
  unfold search_brave, raise_for_status, response_json, requests_get. run.
  destruct (net w (clock w) (web_search_request keyword)) as [web_resp|e]; [|by apply Hstop].
  destruct (is_error_status web_resp); [by apply Hstop|].
  destruct (json_loads _) as [web_data|]; [|by apply Hstop].
  destruct (web_results web_data) as [results|e]; [|by apply Hstop].
  destruct (Str.is_empty IMAGE_BUCKET) eqn:Hb; [by apply Hstop|].
  apply is_empty_false in Hb. simpl.
  destruct (net _ _ (image_search_request keyword)) as [img_resp|e];
    [|apply (Hstop2 _ _ []); [done | simpl; lia | done]].
  destruct (ok img_resp); [|apply (Hstop2 _ _ []); [done | simpl; lia | done]].
  destruct (json_loads _) as [img_data|]; [|apply (Hstop2 _ _ []); [done | simpl; lia | done]].
  destruct (image_results img_data _) as [o2 w2] eqn:Himg.
  destruct (image_results_events _ _ _ _ Himg) as (evs & Ht & Hg).
  destruct o2 as [images|e]; by apply (Hstop2 _ _ evs).
Qed.

Lemma search_requests_bounded_witness :
  ∃ evs,
    trace (snd (@search_brave (Sample.search_env 12 "bucket") "cat"
                  (Sample.world (Sample.search_service 200 12))))
    = evs ++ [Get (@web_search_request (Sample.search_env 12 "bucket") "cat")]
          ++ trace (Sample.world (Sample.search_service 200 12))
    ∧ (length (List.filter is_get evs) ≤ 1 + MAX_IMAGES)%nat
    ∧ (evs ≠ [] ->
       last evs = Some (Get (@image_search_request (Sample.search_env 12 "bucket") "cat")))
    ∧ (@IMAGE_BUCKET (Sample.search_env 12 "bucket") = "" -> evs = []).
Proof.
  apply (@search_requests_bounded (Sample.search_env 12 "bucket") "cat"
           (Sample.world (Sample.search_service 200 12)) _
           (fst (@search_brave (Sample.search_env 12 "bucket") "cat"
                   (Sample.world (Sample.search_service 200 12))))).
  apply surjective_pairing.
Defined.

(** ** Cleaning a page *)

Lemma decompose_node_clean_id (names : list string) (n : node) :
  Forall (λ d, name_in names d = false) (n :: descendants n) ->
  decompose_node names n = [n].
Proof.
  induction n as [s|s|nm ats cs IH] using node_ind'; [done | done |].
  intros [Hn Hcs]%Forall_cons. simpl in Hn. simpl. rewrite Hn. do 2 f_equal.
  simpl in Hcs. induction IH as [|c cs Hc _ IHcs]; simpl; [done|].
  simpl in Hcs. apply Forall_cons in Hcs as [Hc0 [Hcd Hrest]%Forall_app].
  rewrite Hc by by constructor. simpl. f_equal. by apply IHcs.
Qed.

Lemma decompose_all_clean_id (names : list string) (sp : soup) :
  Forall (λ d, name_in names d = false) (soup_descendants sp) ->
  decompose_all names sp = sp.
Proof.
  unfold soup_descendants, decompose_all.
  induction sp as [|n sp IH]; simpl; [done|].
  intros [Hn [Hd Hrest]%Forall_app]%Forall_cons.
  rewrite decompose_node_clean_id by by constructor. simpl. f_equal. by apply IH.
Qed.

Lemma filter_nil_Forall {A} (f : A -> bool) (l : list A) :
  List.filter f l = [] -> Forall (λ x, f x = false) l.
Proof.
  induction l as [|x l IH]; simpl; [constructor|].
  destruct (f x) eqn:Hx; [done|]. intros ?%IH. by constructor.
Qed.

(** X14. A page with none of the tags to remove is left as it is by
    the removal, and removing a second time changes nothing. *)
Theorem decompose_all_stable (names : list string) (sp : soup) :
  (find_all names sp = [] -> decompose_all names sp = sp)
  ∧ decompose_all names (decompose_all names sp) = decompose_all names sp.
Proof.
  split.
  - intros Hnone%filter_nil_Forall. by apply decompose_all_clean_id.
  - apply decompose_all_clean_id, filter_nil_Forall, find_all_decomposed.
Qed.

Lemma decompose_all_stable_witness :
  decompose_all NOISE_TAGS Sample.long_soup = Sample.long_soup.
Proof.
  apply (proj1 (decompose_all_stable NOISE_TAGS Sample.long_soup)).
  vm_compute. reflexivity.
Defined.

(** ** The shape of the replies of the search service *)

Lemma py_get_raise (d : json) (key : string) (dflt : json) (e : exn) :
  py_get d key dflt = Raise e -> ∃ cls msg, e = PyError cls msg.
Proof. destruct d; simpl; intros [= <-]; by eexists _, _. Qed.

Lemma search_hit_raise (item : json) (e : exn) :
  search_hit item = Raise e -> ∃ cls msg, e = PyError cls msg.
Proof.
  unfold search_hit. run.
  destruct (py_get item "title" _) eqn:H1; [|intros [= <-]; by eapply py_get_raise].
  destruct (py_get item "url" _) eqn:H2; [|intros [= <-]; by eapply py_get_raise].
  destruct (py_get item "description" _) eqn:H3; [|intros [= <-]; by eapply py_get_raise].
  destruct (py_get item "meta_url" _) eqn:H4; [|intros [= <-]; by eapply py_get_raise].
  destruct (py_get _ "hostname" _) eqn:H5; [done|intros [= <-]; by eapply py_get_raise].
Qed.

Lemma hits_loop_raise (items acc : list json) (e : exn) :
  hits_loop items acc = Raise e -> ∃ cls msg, e = PyError cls msg.
Proof.
  revert acc. induction items as [|item items IH]; intros acc; simpl; [done|]. run.
  destruct (search_hit item) eqn:Hhit; [apply IH|].
  intros [= <-]. by eapply search_hit_raise.
Qed.

Lemma web_results_raise (web_data : json) (e : exn) :
  web_results web_data = Raise e -> ∃ cls msg, e = PyError cls msg.
Proof.
  unfold web_results. run.
  destruct (py_get web_data "web" _) as [web|] eqn:H1;
    [|intros [= <-]; by eapply py_get_raise].
  destruct (py_get web "results" _) as [found|] eqn:H2;
    [|intros [= <-]; by eapply py_get_raise].
  destruct (py_iter found) as [items|] eqn:H3.
  - apply hits_loop_raise.
  - intros [= <-]. destruct found; simpl in H3; try discriminate;
      injection H3 as <-; by eexists _, _.
Qed.

(** X15. When the web search is answered, with a status that is no
    error, by JSON from which the hits cannot be read (a value that is
    no dictionary where one is needed, a list of results that cannot be
    iterated), the request is answered with status 500 after that one
    request: no partial result is returned. *)
Theorem unreadable_web_reply `{Env} (event context : json) (w : World)
    (keyword : string) (web_resp : Response) (web_data : json) (e : exn) :
  asks event keyword "" ->
  net w (clock w) (web_search_request keyword) = Ret web_resp ->
  is_error_status web_resp = false ->
  json_loads (decode "utf-8" (content web_resp)) = Some web_data ->
  web_results web_data = Raise e ->
  ∃ msg,
    lambda_handler event context w
    = (Ret (_error 500 msg), tick (Get (web_search_request keyword)) w).
Proof.
  intros Hasks Hnet Hok Hjson Hraise.
  destruct (web_results_raise _ _ Hraise) as (cls & msg & ->).
  rewrite (handler_on_asks _ _ _ _ _ Hasks).
  unfold run_request, search_brave, raise_for_status, response_json, requests_get. run.
  simpl. rewrite Hnet, Hok, Hjson, Hraise. by eexists.
Qed.

Lemma unreadable_web_reply_witness :
  ∃ msg,
    @lambda_handler Cases.list_env (Sample.post Sample.search_request) JNull
      (Sample.world Cases.list_service)
    = (Ret (@_error Cases.list_env 500 msg),
       tick (Get (@web_search_request Cases.list_env "cat"))
         (Sample.world Cases.list_service)).
Proof.
  apply (@unreadable_web_reply Cases.list_env (Sample.post Sample.search_request) JNull
           (Sample.world Cases.list_service) "cat"
           {| status_code := 200; resp_headers := [("Content-Type", "application/json")];
              content := encode (Sample.dumps (JArr []));
              apparent_encoding := None; encoding := None |}
           (JArr []) (PyError "AttributeError" "'list' object has no attribute 'get'")).
  - sample_asks Sample.search_request [("keyword", JStr " cat ")].
  - reflexivity.
  - reflexivity.
  - vm_compute. reflexivity.
  - reflexivity.
Defined.

(** X16. With a bucket configured, an image search that is answered,
    with a status that is no error, by JSON that is no dictionary fails
    the whole request with status 500, although the web search
    succeeded: the hits are not returned. *)
Theorem unreadable_image_reply `{Env} (event context : json) (w : World)
    (keyword : string) (web_resp img_resp : Response) (web_data img_data : json)
    (results : list json) :
  asks event keyword "" ->
  IMAGE_BUCKET ≠ "" ->
  net w (clock w) (web_search_request keyword) = Ret web_resp ->
  is_error_status web_resp = false ->
  json_loads (decode "utf-8" (content web_resp)) = Some web_data ->
  web_results web_data = Ret results ->
  net w (S (clock w)) (image_search_request keyword) = Ret img_resp ->
  is_error_status img_resp = false ->
  json_loads (decode "utf-8" (content img_resp)) = Some img_data ->
  (∀ kvs, img_data ≠ JObj kvs) ->
  ∃ msg,
    lambda_handler event context w
    = (Ret (_error 500 msg),
       tick (Get (image_search_request keyword))
         (tick (Get (web_search_request keyword)) w)).
Proof.
  intros Hasks Hb%is_empty_false Hweb Hok Hjson Hhits Himg Hiok Hijson Hshape.
  rewrite (handler_on_asks _ _ _ _ _ Hasks).
  unfold run_request, search_brave, raise_for_status, response_json, requests_get,
    image_results, ok. run.
  simpl. rewrite Hweb, Hok, Hjson, Hhits, Hb. simpl. rewrite Himg, Hiok, Hijson. simpl.
  destruct img_data; simpl; try by eexists.
  by destruct (Hshape fields).
Qed.

Lemma unreadable_image_reply_witness :
  ∃ msg,
    @lambda_handler
      (Sample.env [] [Sample.search_request; Sample.web_doc; JArr []] "bucket")
      (Sample.post Sample.search_request) JNull
      (Sample.world (fun u =>
         if String.eqb u "https://api.search.brave.com/res/v1/web/search"
         then Sample.reply 200 "application/json" (Sample.dumps Sample.web_doc)
         else Sample.reply 200 "application/json" (Sample.dumps (JArr []))))
    = (Ret (@_error (Sample.env [] [Sample.search_request; Sample.web_doc; JArr []] "bucket")
              500 msg),
       tick (Get (@image_search_request
                    (Sample.env [] [Sample.search_request; Sample.web_doc; JArr []] "bucket")
                    "cat"))
         (tick (Get (@web_search_request
                       (Sample.env [] [Sample.search_request; Sample.web_doc; JArr []]
                          "bucket") "cat"))
            (Sample.world (fun u =>
               if String.eqb u "https://api.search.brave.com/res/v1/web/search"
               then Sample.reply 200 "application/json" (Sample.dumps Sample.web_doc)
               else Sample.reply 200 "application/json" (Sample.dumps (JArr [])))))).
Proof.
  eapply (@unreadable_image_reply
            (Sample.env [] [Sample.search_request; Sample.web_doc; JArr []] "bucket")
            (Sample.post Sample.search_request) JNull _ "cat" _ _ Sample.web_doc (JArr [])).
  - sample_asks Sample.search_request [("keyword", JStr " cat ")].
  - discriminate.
  - vm_compute. reflexivity.
  - reflexivity.
  - vm_compute. reflexivity.
  - vm_compute. reflexivity.
  - vm_compute. reflexivity.
  - reflexivity.
  - vm_compute. reflexivity.
  - discriminate.
Defined.

Lemma hits_loop_in_order (items acc : list json) :
  Forall hit_shaped items ->
  hits_loop items acc = Ret (acc ++ map hit_of items).
Proof.
  intros Hall. revert acc.
  induction Hall as [|item items (kvs & -> & Hmeta) _ IH]; intros acc; simpl.
  - by rewrite app_nil_r.
  - unfold search_hit. run. simpl.
    assert (∀ host,
              match py_get (default (JObj []) (lookup_field "meta_url" kvs))
                      "hostname" (JStr "") with
              | Ret h => h = host | Raise _ => False
              end ->
              host = match lookup_field "meta_url" kvs with
                     | Some (JObj meta) => field_or_empty "hostname" meta
                     | _ => JStr ""
                     end) as Hhost.
    { intros host. destruct (lookup_field "meta_url" kvs) as [[| | | | |meta]|];
        simpl; try done; by intros <-. }
    destruct (py_get (default (JObj []) (lookup_field "meta_url" kvs)) "hostname" (JStr ""))
      as [host|e] eqn:Hget.
    + rewrite (Hhost host eq_refl). rewrite IH. by rewrite <- app_assoc.
    + by destruct (lookup_field "meta_url" kvs) as [[| | | | |meta]|].
Qed.

(** X17. When the results of the web search are a list of dictionaries,
    each with no [meta_url] or one that is a dictionary, the hits are
    their images in the same order, one per result: title, url and
    snippet are the title, url and description of the result, and the
    display host is the host name of its [meta_url], each the empty
    text when missing. *)
Theorem web_results_in_order (web_data web : json) (items : list json) :
  py_get web_data "web" (JObj []) = Ret web ->
  py_get web "results" (JArr []) = Ret (JArr items) ->
  Forall hit_shaped items ->
  web_results web_data = Ret (map hit_of items)
  ∧ length (map hit_of items) = length items.
Proof.
  intros Hweb Hfound Hall. unfold web_results. run.
  rewrite Hweb, Hfound. simpl.
  rewrite (hits_loop_in_order items [] Hall). by rewrite length_map.
Qed.

Lemma web_results_in_order_witness :
  web_results Sample.web_doc
  = Ret (map hit_of
           [JObj [("title", JStr "Cats");
                  ("url", JStr "https://site.test/dir/page.html");
                  ("description", JStr "All about cats");
                  ("meta_url", JObj [("hostname", JStr "site.test")])]])
  ∧ length (map hit_of
              [JObj [("title", JStr "Cats");
                     ("url", JStr "https://site.test/dir/page.html");
                     ("description", JStr "All about cats");
                     ("meta_url", JObj [("hostname", JStr "site.test")])]]) = 1%nat.
Proof.
  eapply (web_results_in_order Sample.web_doc); [reflexivity | reflexivity |].
  constructor; [|constructor]. by eexists.
Defined.

Lemma storage_key_shape_witness :
  ∃ h,
    storage_key "https://site.test/dir/a.jpg" (@extension_of Sample.site_env "image/webp")
    = "images/" +:+ h +:+ @extension_of Sample.site_env "image/webp"
    ∧ String.length h = 32%nat
    ∧ all_chars is_lower_hex h = true
    ∧ @extension_of Sample.site_env "image/webp" ≠ ""
    ∧ @extension_of Sample.site_env "image/webp" ≠ ".jpe"
    ∧ (@guess_extension Sample.site_env "image/webp" = None ->
       @extension_of Sample.site_env "image/webp" = ".jpg").
Proof.
  exact (@storage_key_shape Sample.site_env "https://site.test/dir/a.jpg" "image/webp").
Defined.

(** ** The case of the keyword *)

Lemma lower_char_idempotent (c : ascii) :
  Str.lower_char (Str.lower_char c) = Str.lower_char c.
Proof. by destruct c as [[] [] [] [] [] [] [] []]. Qed.

Lemma lower_idempotent (s : string) : Str.lower (Str.lower s) = Str.lower s.
Proof. induction s as [|c s IH]; simpl; [done|]. by rewrite lower_char_idempotent, IH. Qed.

(** X18. The matches of a page do not depend on the case of the
    keyword: a keyword and its lower-case form, and any two keywords
    with the same lower-case form, give the same matches. *)
Theorem keyword_case_ignored (sp : soup) (keyword other : string) :
  page_matches sp (Str.lower keyword) = page_matches sp keyword
  ∧ (Str.lower other = Str.lower keyword ->
     page_matches sp other = page_matches sp keyword).
Proof.
  unfold page_matches. rewrite lower_idempotent. split; [done|]. by intros ->.
Qed.

Lemma keyword_case_ignored_witness :
  page_matches Sample.page_soup "CAT" = page_matches Sample.page_soup "Cat".
Proof.
  apply (proj2 (keyword_case_ignored Sample.page_soup "Cat" "CAT")). reflexivity.
Defined.

(** ** The requests of a harvest *)

Lemma collect_loop_requests `{Env} (base_url : string) (imgs : list node)
    (acc : list json) (w w' : World) (o : outcome (list json)) :
  collect_loop base_url imgs acc w = (o, w') ->
  ∃ evs,
    trace w' = evs ++ trace w
    ∧ (length (List.filter is_get evs) ≤ length (image_candidates base_url imgs))%nat.
Proof.
  revert acc w. induction imgs as [|img imgs IH]; intros acc w.
  - intros [= _ <-]. exists []. split; [done | simpl; lia].
  - rewrite collect_loop_cons. unfold image_candidates. cbn [flat_map].
    fold (image_candidates base_url imgs). unfold image_candidate.
    destruct (MAX_IMAGES <=? length acc)%nat.
    { intros [= _ <-]. exists []. split; [done | simpl; lia]. }
    destruct (_ || _); [apply IH|].
    destruct (urljoin base_url _) as [full_url|e].
    2:{ intros [= _ <-]. exists []. split; [done | simpl; lia]. }
    destruct (is_http full_url); simpl; [|apply IH].
    destruct (upload_cases full_url w) as (r & w1 & evs1 & -> & Ht1 & Hev1 & _).
    assert (∀ acc',
              collect_loop base_url imgs acc' w1 = (o, w') ->
              ∃ evs,
                trace w' = evs ++ trace w
                ∧ (length (List.filter is_get evs)
                   ≤ S (length (image_candidates base_url imgs)))%nat) as Hnext.
    { intros acc' (evs & Ht & Hg)%IH.
      exists (evs ++ evs1). split.
      - by rewrite Ht, Ht1, app_assoc.
      - rewrite List.filter_app, length_app, (upload_events_get _ _ Hev1). simpl. lia. }
    destruct r as [u|]; [|apply Hnext].
    destruct (Str.is_empty u); apply Hnext.
Qed.

(** X19. Whether it returns or raises, the harvest of a page makes at
    most one request per candidate image tag (a tag with a source that
    is not empty, no [data:] URI, and that [urljoin] resolves to an http
    or https address), and so none for a page with no candidate. *)
Theorem one_request_per_candidate `{Env} (sp : soup) (base_url : string) (w w' : World)
    (o : outcome (list json)) :
  _collect_images sp base_url w = (o, w') ->
  ∃ evs,
    trace w' = evs ++ trace w
    ∧ (length (List.filter is_get evs)
       ≤ length (image_candidates base_url (find_all ["img"] sp)))%nat.
Proof.
  unfold _collect_images. destruct (Str.is_empty IMAGE_BUCKET).
  - intros [= _ <-]. exists []. split; [done | simpl; lia].
  - intros (evs & Ht & Hg)%collect_loop_requests.
    rewrite image_candidates_selected in Hg. by exists evs.
Qed.

Lemma one_request_per_candidate_witness :
  ∃ evs,
    trace (snd (@_collect_images Sample.site_env
                  (decompose_all NOISE_TAGS Sample.page_soup) Sample.page_url
                  (Sample.world Sample.site)))
    = evs ++ trace (Sample.world Sample.site)
    ∧ (length (List.filter is_get evs)
       ≤ length (@image_candidates Sample.site_env Sample.page_url
                   (find_all ["img"] (decompose_all NOISE_TAGS Sample.page_soup))))%nat.
Proof.
  apply (@one_request_per_candidate Sample.site_env
           (decompose_all NOISE_TAGS Sample.page_soup) Sample.page_url
           (Sample.world Sample.site) _
           (fst (@_collect_images Sample.site_env
                   (decompose_all NOISE_TAGS Sample.page_soup) Sample.page_url
                   (Sample.world Sample.site)))).
  apply surjective_pairing.
Defined.

(** ** Checks on the samples *)

Example md5_of_empty : MD5.hexdigest (encode "") = "d41d8cd98f00b204e9800998ecf8427e".
Proof. vm_compute. reflexivity. Qed.

Example md5_of_abc : MD5.hexdigest (encode "abc") = "900150983cd24fb0d6963f7d28e17f72".
Proof. vm_compute. reflexivity. Qed.

Example md5_of_address :
  MD5.hexdigest (encode "https://site.test/dir/a.jpg") = "ea67d4b9b17cb25d10164ef813e5244d".
Proof. vm_compute. reflexivity. Qed.

Example strip_and_lower :
  Str.strip "  Cat  " = "Cat" ∧ Str.lower "Cat" = "cat"
  ∧ Str.contains "at" "cat" = true ∧ Str.contains "ta" "cat" = false
  ∧ Str.split_head ";" "image/png; charset=binary" = "image/png"
  ∧ Str.of_Z 404 = "404".
Proof. vm_compute. done. Qed.

(** The sample page: one match (the text in the menu is ignored, the
    repeated text is kept once, the short item is dropped) and two
    images (the inline image, the mail address and the tag with no
    source are skipped). *)
Example sample_page_scraped :
  let r := Sample.result_of
             (@scrape_url Sample.site_env Sample.page_url "CAT" (Sample.world Sample.site)) in
  field "title" r = Some (JStr "Cats")
  ∧ field "description" r = Some (JStr "All about cats")
  ∧ field "matches" r = Some (JArr [JStr "The cat sat on the mat all day long."])
  ∧ field "match_count" r = Some (JNum 1)
  ∧ field "image_count" r = Some (JNum 2)
  ∧ (field "images" r ≫= λ v, match v with
                              | JArr l => Some (map (field "original_url") l)
                              | _ => None
                              end)
    = Some [Some (JStr "https://site.test/dir/a.jpg");
            Some (JStr "https://cdn.test/b.png")].
Proof. vm_compute. done. Qed.

(** Twenty-five matches: twenty are returned, twenty-five are counted. *)
Example long_page_truncated :
  let r := Sample.result_of
             (@scrape_soup Sample.site_env Sample.long_soup Sample.page_url "cat"
                (Sample.world Sample.site)) in
  field "match_count" r = Some (JNum 25)
  ∧ (field "matches" r ≫= λ v, match v with JArr l => Some (length l) | _ => None end)
    = Some 20%nat.
Proof. vm_compute. done. Qed.

(** A page whose fetch is answered with status 404 is answered with
    status 502 and a message that carries the 404. *)
Example page_not_found :
  ∃ response,
    fst (@lambda_handler (Sample.search_env 2 "bucket")
           (Sample.post Sample.missing_page_request) JNull (Sample.world Sample.site))
    = Ret response
    ∧ statusCode response = 502%Z
    ∧ Str.contains "404" (body response) = true.
Proof. eexists. split_and!; vm_compute; reflexivity. Qed.

(** An event with no body has no keyword: status 400. *)
Example empty_event_rejected :
  ∃ response,
    fst (@lambda_handler (Sample.search_env 2 "bucket") (JObj []) JNull
           (Sample.world Sample.site)) = Ret response
    ∧ statusCode response = 400%Z.
Proof. eexists. split; vm_compute; reflexivity. Qed.
